(** * A shallow embedding of the pv-ratelimit rate limiters

    Each limiter of the repository is modelled after its source:
    - the in-memory backends ([src/memory/*], [src/unnamed/part_007],
      [src/unnamed/part_009]) keep a JavaScript [Map] from caller keys to
      state objects; we model the map as a [gmap string _] and every
      in-place mutation of the object held in the map as a re-insertion of
      the mutated value under its key;
    - the Redis backends ([src/ioredis/*], [src/unnamed/part_001],
      [src/unnamed/part_002]) run one Lua script per call; a script is
      modelled as a pure function from the value stored under the Redis key
      (and the script arguments) to the script's reply and the new stored
      value.

    Time: the in-memory backends read [Math.floor(Date.now() / 1000)], so
    their operations take the clock in milliseconds [ms] and compute
    [now := ms / 1000] ([Z.div] is the floor for a positive divisor).  The
    Redis token bucket passes [Date.now() / 1000] as a fractional number of
    seconds; we keep that time exactly by expressing every time of the
    script in milliseconds (an interval of [i] seconds is [1000 * i]
    milliseconds), so that the script's real divisions become integer
    divisions of the scaled values.  Token amounts, limits and intervals
    are integers. *)

From Stdlib Require Import ZArith Lia.
From Stdlib Require Floats.SpecFloat.
From stdpp Require Import base gmap strings list fin_maps.

Open Scope Z_scope.

(** A call either returns a value or throws (the [throw new Error(msg)] of
    the TypeScript code). *)
Inductive Outcome (A : Type) : Type :=
| Ok (a : A)
| Throws (msg : string).
Arguments Ok {A} a.
Arguments Throws {A} msg.

(** A time [x] in milliseconds returned by a Lua script as a number of
    seconds: Redis turns a Lua number into an integer reply by truncating it
    toward zero, and [Math.ceil] of that integer leaves it as it is. *)
Definition reply_seconds (x : Z) : Z := Z.quot x 1000.

(* ===================================================================== *)
(** ** Token bucket ([src/src/memory/MemoryLeakyBucket.ts], second class,
       and [src/src/ioredis/IORedisTokenBucket.ts]) *)
(* ===================================================================== *)

Module TokenBucket.

(** Constructor arguments ([refillInterval] in seconds). *)
Record Config := {
  capacity : Z;
  refillAmount : Z;
  refillInterval : Z
}.

(** The constructors' guard: all three values positive. *)
Definition valid_config (c : Config) : Prop :=
  0 < capacity c /\ 0 < refillAmount c /\ 0 < refillInterval c.

(** [TokenConsumeResult] *)
Record TokenConsumeResult := {
  success : bool;
  remainingTokens : Z;
  nextRefillAt : Z
}.

(** [TokenCountResult] *)
Record TokenCountResult := {
  countRemainingTokens : Z;
  countNextRefillAt : Z
}.

Module Mem.

(** [interface BucketState] *)
Record BucketState := {
  tokens : Z;
  lastRefill : Z
}.

Section MemoryTokenBucket.
Variable c : Config.

(** [private getOrCreateBucket(key, now)]: the created bucket is stored in
    the map before it is returned. *)
Definition getOrCreateBucket (buckets : gmap string BucketState)
    (key : string) (now : Z) : BucketState * gmap string BucketState :=
  match buckets !! key with
  | Some b => (b, buckets)
  | None =>
      let b := {| tokens := capacity c; lastRefill := now |} in
      (b, <[key := b]> buckets)
  end.

(** [private refillBucket(bucket, now)] *)
Definition refillBucket (b : BucketState) (now : Z) : BucketState :=
  let timeElapsed := now - lastRefill b in
  let refillCycles := timeElapsed / refillInterval c in
  if 0 <? refillCycles then
    let tokensToAdd := refillCycles * refillAmount c in
    {| tokens := Z.min (capacity c) (tokens b + tokensToAdd);
       lastRefill := now |}
  else b.

(** [async consume(key, tokens = 1)]; [ms] is [Date.now()].  The bucket
    object lives in the map, so the refill that mutates it is stored also
    on the rejecting branch. *)
Definition consume (buckets : gmap string BucketState) (key : string)
    (requested : Z) (ms : Z)
    : Outcome (TokenConsumeResult * gmap string BucketState) :=
  if requested <? 0 then
    Throws "Tokens to consume must be greater than or equal to 0"
  else
    let now := ms / 1000 in
    let '(b0, buckets1) := getOrCreateBucket buckets key now in
    let b := refillBucket b0 now in
    if tokens b <? requested then
      Ok ({| success := false; remainingTokens := tokens b;
             nextRefillAt := lastRefill b + refillInterval c |},
          <[key := b]> buckets1)
    else
      let b' := {| tokens := tokens b - requested; lastRefill := now |} in
      Ok ({| success := true; remainingTokens := tokens b';
             nextRefillAt := lastRefill b' + refillInterval c |},
          <[key := b']> buckets1).

(** [async getRemainingTokens(key)] *)
Definition getRemainingTokens (buckets : gmap string BucketState)
    (key : string) (ms : Z) : TokenCountResult * gmap string BucketState :=
  let now := ms / 1000 in
  let '(b0, buckets1) := getOrCreateBucket buckets key now in
  let b := refillBucket b0 now in
  ({| countRemainingTokens := tokens b;
      countNextRefillAt := lastRefill b + refillInterval c |},
   <[key := b]> buckets1).

(** [async addTokens(key, amount)] *)
Definition addTokens (buckets : gmap string BucketState) (key : string)
    (amount : Z) (ms : Z) : Outcome (gmap string BucketState) :=
  if amount <=? 0 then Throws "Amount to add must be greater than 0"
  else
    let now := ms / 1000 in
    let '(b0, buckets1) := getOrCreateBucket buckets key now in
    let b := refillBucket b0 now in
    Ok (<[key := {| tokens := Z.min (capacity c) (tokens b + amount);
                    lastRefill := lastRefill b |}]> buckets1).

(** [async removeTokens(key, amount)] *)
Definition removeTokens (buckets : gmap string BucketState) (key : string)
    (amount : Z) (ms : Z) : Outcome (gmap string BucketState) :=
  if amount <=? 0 then Throws "Amount to remove must be greater than 0"
  else
    let now := ms / 1000 in
    let '(b0, buckets1) := getOrCreateBucket buckets key now in
    let b := refillBucket b0 now in
    Ok (<[key := {| tokens := Z.max 0 (tokens b - amount);
                    lastRefill := lastRefill b |}]> buckets1).

(** [cleanup()]: drops every bucket whose last refill is more than ten
    refill intervals ago. *)
Definition cleanup (buckets : gmap string BucketState) (ms : Z)
    : gmap string BucketState :=
  let now := ms / 1000 in
  let maxAge := refillInterval c * 10 in
  filter (fun kb => ~ (maxAge < now - lastRefill kb.2)) buckets.

End MemoryTokenBucket.
End Mem.

Module Redis.

(** The Redis hash stored under [token_bucket:<key>]: both scripts that
    create it write both fields, [last_updated] kept here in milliseconds
    (see the time convention at the top of the file). *)
Record BucketHash := {
  h_tokens : Z;
  h_last_updated : Z
}.

Definition PREFIX : string := "token_bucket".

Definition redisKey (key : string) : string := PREFIX +:+ ":" +:+ key.

Section IORedisTokenBucket.
Variable c : Config.

(** [refill_interval] in milliseconds. *)
Definition refill_interval_ms : Z := 1000 * refillInterval c.

(** The part shared by the Lua scripts [consumeToken] and
    [getRemainingTokens]: the read of the hash and the refill, returning
    [(current_tokens, new_last_updated)]. *)
Definition refill (bucket : option BucketHash) (current_time : Z) : Z * Z :=
  let '(last_tokens, last_updated) :=
    match bucket with
    | Some h => (h_tokens h, h_last_updated h)
    | None => (capacity c, current_time)
    end in
  let elapsed_time := current_time - last_updated in
  if refill_interval_ms <=? elapsed_time then
    let refills_to_add := elapsed_time / refill_interval_ms in
    let tokens_to_add := refills_to_add * refillAmount c in
    (Z.min (capacity c) (last_tokens + tokens_to_add),
     last_updated + refills_to_add * refill_interval_ms)
  else (last_tokens, last_updated).

(** Lua script [consumeToken]: reply [{success_flag, remaining_tokens,
    next_refill_at}] and the new hash. *)
Definition consumeToken (bucket : option BucketHash) (current_time : Z)
    (requested_tokens : Z) : (Z * Z * Z) * option BucketHash :=
  let '(current_tokens, new_last_updated) := refill bucket current_time in
  let next_refill_at := new_last_updated + refill_interval_ms in
  if requested_tokens <=? current_tokens then
    let remaining_tokens := current_tokens - requested_tokens in
    ((1, remaining_tokens, next_refill_at),
     Some {| h_tokens := remaining_tokens;
             h_last_updated := new_last_updated |})
  else ((0, current_tokens, next_refill_at), bucket).

(** Lua script [getRemainingTokens]: reply [{remaining_tokens,
    next_refill_at}] and the new hash (the refill is written back when a
    refill was due). *)
Definition getRemainingTokensScript (bucket : option BucketHash)
    (current_time : Z) : (Z * Z) * option BucketHash :=
  let '(current_tokens, new_last_updated) := refill bucket current_time in
  let next_refill_at := new_last_updated + refill_interval_ms in
  let last_updated :=
    match bucket with Some h => h_last_updated h | None => current_time end in
  let elapsed_time := current_time - last_updated in
  ((current_tokens, next_refill_at),
   if refill_interval_ms <=? elapsed_time then
     Some {| h_tokens := current_tokens; h_last_updated := new_last_updated |}
   else bucket).

(** [public async consume(key, tokens = 1)]: no check of [tokens]; the
    reply's token count is floored (an integer here) and the refill time
    is the integer reply of the script's number of seconds. *)
Definition consume (store : gmap string BucketHash) (key : string)
    (tokens : Z) (ms : Z) : TokenConsumeResult * gmap string BucketHash :=
  let k := redisKey key in
  let '((successFlag, remaining, nextRefill), h') :=
    consumeToken (store !! k) ms tokens in
  ({| success := Z.eqb successFlag 1; remainingTokens := remaining;
      nextRefillAt := reply_seconds nextRefill |},
   match h' with Some h => <[k := h]> store | None => delete k store end).

(** [public async getRemainingTokens(key)] *)
Definition getRemainingTokens (store : gmap string BucketHash) (key : string)
    (ms : Z) : TokenCountResult * gmap string BucketHash :=
  let k := redisKey key in
  let '((remaining, nextRefill), h') := getRemainingTokensScript (store !! k) ms in
  ({| countRemainingTokens := remaining;
      countNextRefillAt := reply_seconds nextRefill |},
   match h' with Some h => <[k := h]> store | None => delete k store end).

(** The Lua script of [addTokens] ([amount] and [capacity] as arguments):
    the hash is created at full capacity when absent, then only the
    [tokens] field is written. *)
Definition addScript (bucket : option BucketHash) (amount : Z)
    (current_time : Z) : BucketHash :=
  let h :=
    match bucket with
    | Some h => h
    | None => {| h_tokens := capacity c; h_last_updated := current_time |}
    end in
  {| h_tokens := Z.min (capacity c) (h_tokens h + amount);
     h_last_updated := h_last_updated h |}.

(** The Lua script of [removeTokens]. *)
Definition removeScript (bucket : option BucketHash) (amount : Z)
    (current_time : Z) : BucketHash :=
  let h :=
    match bucket with
    | Some h => h
    | None => {| h_tokens := capacity c; h_last_updated := current_time |}
    end in
  {| h_tokens := Z.max 0 (h_tokens h - amount);
     h_last_updated := h_last_updated h |}.

(** [public async addTokens(key, amount)]: [if (amount <= 0) return;] *)
Definition addTokens (store : gmap string BucketHash) (key : string)
    (amount : Z) (ms : Z) : Outcome (gmap string BucketHash) :=
  if amount <=? 0 then Ok store
  else
    let k := redisKey key in
    Ok (<[k := addScript (store !! k) amount ms]> store).

(** [public async removeTokens(key, amount)] *)
Definition removeTokens (store : gmap string BucketHash) (key : string)
    (amount : Z) (ms : Z) : Outcome (gmap string BucketHash) :=
  if amount <=? 0 then Ok store
  else
    let k := redisKey key in
    Ok (<[k := removeScript (store !! k) amount ms]> store).

End IORedisTokenBucket.
End Redis.

End TokenBucket.

(** [getKey(ratelimiterType, ratelimiterName, id)] of [src/src/utils/key.ts]
    (without the optional [extra] part). *)
Definition getKey (ratelimiterType ratelimiterName id : string) : string :=
  ratelimiterType +:+ ":" +:+ ratelimiterName +:+ ":" +:+ id.

(* ===================================================================== *)
(** ** Fixed window ([src/unnamed/part_009], [MemoryFixedWindow], and
       [src/src/ioredis/IORedisFixedWindow.ts]) *)
(* ===================================================================== *)

Module FixedWindow.

(** [FixedWindowResult] *)
Record FixedWindowResult := {
  success : bool;
  remaining : Z
}.

Module Mem.

(** [interface WindowData] *)
Record WindowData := {
  count : Z;
  windowStart : Z
}.

Section MemoryFixedWindow.
(** [limit] and [interval] (seconds), both positive by the constructor. *)
Variables limit interval : Z.

(** [private getWindowStart(timestamp)] *)
Definition getWindowStart (timestamp : Z) : Z :=
  timestamp / interval * interval.

(** [async consume(key)]: the fresh window object is only stored on the
    accepting branch. *)
Definition consume (storage : gmap string WindowData) (key : string) (ms : Z)
    : FixedWindowResult * gmap string WindowData :=
  let now := ms / 1000 in
  let ws := getWindowStart now in
  let windowData :=
    match storage !! key with
    | Some w => if Z.eqb (windowStart w) ws then w
                else {| count := 0; windowStart := ws |}
    | None => {| count := 0; windowStart := ws |}
    end in
  if limit <=? count windowData then
    ({| success := false; remaining := 0 |}, storage)
  else
    let w' := {| count := count windowData + 1; windowStart := windowStart windowData |} in
    ({| success := true; remaining := limit - count w' |}, <[key := w']> storage).

(** [async getRemaining(key)] *)
Definition getRemaining (storage : gmap string WindowData) (key : string)
    (ms : Z) : Z :=
  let now := ms / 1000 in
  let ws := getWindowStart now in
  match storage !! key with
  | Some w => if Z.eqb (windowStart w) ws then Z.max 0 (limit - count w)
              else limit
  | None => limit
  end.

(** [cleanupAllExpired()]: drops every window that started before the
    current window. *)
Definition cleanupAllExpired (storage : gmap string WindowData) (ms : Z)
    : gmap string WindowData :=
  let now := ms / 1000 in
  let currentWindowStart := getWindowStart now in
  filter (fun kw => ~ (windowStart kw.2 < currentWindowStart)) storage.

(** A caller awaiting [consume(key)] once per timestamp of [ts], in
    order, each call seeing the map the previous one left. *)
Fixpoint consumeSeq (storage : gmap string WindowData) (key : string) (ts : list Z)
    : list FixedWindowResult * gmap string WindowData :=
  match ts with
  | [] => ([], storage)
  | ms :: ts' =>
      let '(r, storage1) := consume storage key ms in
      let '(rs, storage2) := consumeSeq storage1 key ts' in
      (r :: rs, storage2)
  end.

End MemoryFixedWindow.
End Mem.

Module Redis.

Definition PREFIX : string := "pvrl-fixed-window".

(** The Redis key [getKey(PREFIX, name, key) + ":" + window] is kept as
    the pair of its two parts (the window index as a number); the counter
    stored under it is an integer.  The key's TTL (set to [interval] at the
    first increment) only expires the counter after its window is over, so
    it is left out. *)
Definition Store := gmap (string * Z) Z.

Section IORedisFixedWindow.
Variables (name : string) (limit interval : Z).

(** [private getKey(key)]: [Math.floor(Date.now() / 1000 / interval)]. *)
Definition windowKey (key : string) (ms : Z) : string * Z :=
  (getKey PREFIX name key, ms / (1000 * interval)).

(** Lua script [consumeFixedWindow]: [INCR] first, then the check. *)
Definition consumeFixedWindow (stored : option Z) : (Z * Z) * Z :=
  let count := default 0 stored + 1 in
  let remaining := if limit - count <? 0 then 0 else limit - count in
  if limit <? count then ((0, remaining), count) else ((1, remaining), count).

(** Lua script [getFixedWindow] *)
Definition getFixedWindow (stored : option Z) : Z :=
  let count := default 0 stored in
  let remaining := limit - count in
  if remaining <? 0 then 0 else remaining.

(** [public async consume(key)] *)
Definition consume (store : Store) (key : string) (ms : Z)
    : FixedWindowResult * Store :=
  let k := windowKey key ms in
  let '((succ, remaining), count) := consumeFixedWindow (store !! k) in
  ({| success := Z.eqb succ 1; remaining := remaining |}, <[k := count]> store).

(** [public async getRemaining(key)] *)
Definition getRemaining (store : Store) (key : string) (ms : Z) : Z :=
  getFixedWindow (store !! windowKey key ms).

(** A caller awaiting [consume(key)] once per timestamp of [ts], in
    order. *)
Fixpoint consumeSeq (store : Store) (key : string) (ts : list Z)
    : list FixedWindowResult * Store :=
  match ts with
  | [] => ([], store)
  | ms :: ts' =>
      let '(r, store1) := consume store key ms in
      let '(rs, store2) := consumeSeq store1 key ts' in
      (r :: rs, store2)
  end.

End IORedisFixedWindow.
End Redis.

End FixedWindow.

(* ===================================================================== *)
(** ** JavaScript and Lua numbers

    The sliding-window weight is a fraction, computed in IEEE-754 binary64
    arithmetic by JavaScript and by the Lua of Redis.  We model those
    numbers with the Standard Library's [SpecFloat] (53-bit mantissa,
    exponent up to 1024, rounding to nearest even).  Integers — counts,
    limits, times in whole seconds or milliseconds — stay in [Z]: below
    2^53 every JavaScript or Lua operation on them is exact. *)
(* ===================================================================== *)

Module Double.

Definition prec : Z := 53.
Definition emax : Z := 1024.

Definition t : Type := SpecFloat.spec_float.

(** The number holding the integer [z]. *)
Definition of_Z (z : Z) : t := SpecFloat.binary_normalize prec emax z 0 false.

Definition mul : t -> t -> t := SpecFloat.SFmul prec emax.
Definition div : t -> t -> t := SpecFloat.SFdiv prec emax.
Definition sub : t -> t -> t := SpecFloat.SFsub prec emax.

(** [Math.floor] / [math.floor] of a finite number, as an integer.
    Infinite and NaN operands give 0; the program reaches them only for
    counts or times beyond 10^300. *)
Definition floor (f : t) : Z :=
  match f with
  | SpecFloat.S754_finite s m e =>
      let z := if s then Zneg m else Zpos m in
      if 0 <=? e then z * 2 ^ e else z / 2 ^ (- e)
  | _ => 0
  end.

(** [math.floor] as a Lua number. *)
Definition floorD (f : t) : t :=
  match f with
  | SpecFloat.S754_finite _ _ _ => of_Z (floor f)
  | _ => f
  end.

(** [Math.max(0, x)]: [x] when positive (or NaN), else [+0]. *)
Definition max0 (f : t) : t :=
  match f with
  | SpecFloat.S754_finite false _ _ | SpecFloat.S754_infinity false
  | SpecFloat.S754_nan => f
  | _ => SpecFloat.S754_zero false
  end.

(** Lua 5.1's [a % b], [a - math.floor(a / b) * b]. *)
Definition lua_mod (a b : t) : t := sub a (mul (floorD (div a b)) b).

End Double.

(* ===================================================================== *)
(** ** Sliding window ([src/src/memory/MemorySlidingWindow.ts] and
       [src/src/ioredis/IORedisSlidingWindow.ts]) *)
(* ===================================================================== *)

Module SlidingWindow.

(** [SlidingWindowResult] *)
Record SlidingWindowResult := {
  success : bool;
  remaining : Z
}.

Module Mem.

(** [interface WindowData] *)
Record WindowData := {
  current : Z;
  previous : Z;
  currentWindowStart : Z
}.

Section MemorySlidingWindow.
Variables limit interval : Z.

(** [private calculateWeightedRate(windowData, now)]: the weight
    [Math.max(0, overlap / this.interval)] and its product with [previous]
    are JavaScript numbers. *)
Definition calculateWeightedRate (w : WindowData) (now : Z) : Z :=
  let currentWindowEnd := currentWindowStart w + interval in
  let overlap := currentWindowEnd - now in
  let weight := Double.max0 (Double.div (Double.of_Z overlap) (Double.of_Z interval)) in
  current w + Double.floor (Double.mul (Double.of_Z (previous w)) weight).

(** The rollover shared by [consume] and [getRemaining]. *)
Definition rollover (w : WindowData) (cws : Z) : WindowData :=
  if negb (Z.eqb (currentWindowStart w) cws) then
    {| previous := current w; current := 0; currentWindowStart := cws |}
  else w.

(** [async consume(key)]: the window object lives in the map, so the
    rollover is stored on both branches. *)
Definition consume (windows : gmap string WindowData) (key : string) (ms : Z)
    : SlidingWindowResult * gmap string WindowData :=
  let now := ms / 1000 in
  let cws := now / interval * interval in
  let w0 :=
    match windows !! key with
    | Some w => w
    | None => {| current := 0; previous := 0; currentWindowStart := cws |}
    end in
  let w := rollover w0 cws in
  let weightedRate := calculateWeightedRate w now in
  if limit <=? weightedRate then
    ({| success := false; remaining := Z.max 0 (limit - weightedRate) |},
     <[key := w]> windows)
  else
    ({| success := true; remaining := Z.max 0 (limit - (weightedRate + 1)) |},
     <[key := {| current := current w + 1; previous := previous w;
                 currentWindowStart := currentWindowStart w |}]> windows).

(** [async getRemaining(key)]: stores the rollover it computes. *)
Definition getRemaining (windows : gmap string WindowData) (key : string)
    (ms : Z) : Z * gmap string WindowData :=
  let now := ms / 1000 in
  match windows !! key with
  | None => (limit, windows)
  | Some w0 =>
      let cws := now / interval * interval in
      let w := rollover w0 cws in
      (Z.max 0 (limit - calculateWeightedRate w now), <[key := w]> windows)
  end.

(** [cleanup()]: drops every window that ended more than two intervals
    before now. *)
Definition cleanup (windows : gmap string WindowData) (ms : Z)
    : gmap string WindowData :=
  let now := ms / 1000 in
  let cutoffTime := now - interval * 2 in
  filter (fun kw => ~ (currentWindowStart kw.2 + interval < cutoffTime)) windows.

End MemorySlidingWindow.
End Mem.

Module Redis.

(** Counters stored under [PREFIX:key:window], keyed here by the pair
    (caller key, window index); times in milliseconds. *)
Definition Store := gmap (string * Z) Z.

Section IORedisSlidingWindow.
Variables limit interval : Z.

(** [Date.now() / 1000], the time in seconds passed to the scripts (its
    decimal form is read back by Lua's [tonumber] as the same number). *)
Definition current_time (ms : Z) : Double.t :=
  Double.div (Double.of_Z ms) (Double.of_Z 1000).

(** [private getKeys(key)]: the index [Math.floor(now / this.interval)]
    of the current window ([PREFIX:key:<index>]); the previous window is
    the index minus one. *)
Definition currentWindow (ms : Z) : Z :=
  Double.floor (Double.div (current_time ms) (Double.of_Z interval)).

(** The common part of both scripts: [(total_count, remaining)], with
    [weight = (interval - current_time % interval) / interval] and
    [math.floor(previous_count * weight)] computed on Lua numbers. *)
Definition script (previous_count current_count : option Z) (ms : Z) : Z * Z :=
  let interval' := Double.of_Z interval in
  let previous_count := default 0 previous_count in
  let time_in_window := Double.lua_mod (current_time ms) interval' in
  let weight := Double.div (Double.sub interval' time_in_window) interval' in
  let weighted_count := Double.floor (Double.mul (Double.of_Z previous_count) weight) in
  let current_count := default 0 current_count in
  let total_count := weighted_count + current_count in
  (total_count, limit - total_count).

(** [public async getRemaining(key)] *)
Definition getRemaining (store : Store) (key : string) (ms : Z) : Z :=
  let w := currentWindow ms in
  let '(_, remaining) := script (store !! (key, w - 1)) (store !! (key, w)) ms in
  if remaining <? 0 then 0 else remaining.

(** [public async consume(key)] *)
Definition consume (store : Store) (key : string) (ms : Z)
    : SlidingWindowResult * Store :=
  let w := currentWindow ms in
  let '(total_count, remaining) := script (store !! (key, w - 1)) (store !! (key, w)) ms in
  if limit <=? total_count then
    ({| success := false; remaining := if remaining <? 0 then 0 else remaining |}, store)
  else
    let remaining := remaining - 1 in
    ({| success := true; remaining := if remaining <? 0 then 0 else remaining |},
     <[(key, w) := default 0 (store !! (key, w)) + 1]> store).

End IORedisSlidingWindow.
End Redis.

End SlidingWindow.

(* ===================================================================== *)
(** ** Sliding log ([src/unnamed/part_007], [MemorySlidingLog], and
       [src/unnamed/part_001], [IORedisSlidingLogRateLimiter]) *)
(* ===================================================================== *)

Module SlidingLog.

(** [SlidingLogResult] *)
Record SlidingLogResult := {
  success : bool;
  remaining : Z
}.

Module Mem.

Section MemorySlidingLog.
Variables limit interval : Z.

(** [async consume(key, uniqueRequestId?)]; the id is unused. *)
Definition consume (storage : gmap string (list Z)) (key : string) (ms : Z)
    : SlidingLogResult * gmap string (list Z) :=
  let now := ms / 1000 in
  let cutoffTime := now - interval in
  let timestamps := default [] (storage !! key) in
  let validTimestamps := filter (fun t => cutoffTime < t) timestamps in
  if limit <=? Z.of_nat (length validTimestamps) then
    ({| success := false; remaining := 0 |}, <[key := validTimestamps]> storage)
  else
    let v := validTimestamps ++ [now] in
    ({| success := true; remaining := limit - Z.of_nat (length v) |},
     <[key := v]> storage).

(** [async getRemaining(key)] *)
Definition getRemaining (storage : gmap string (list Z)) (key : string)
    (ms : Z) : Z :=
  let now := ms / 1000 in
  let cutoffTime := now - interval in
  match storage !! key with
  | None => limit
  | Some timestamps =>
      Z.max 0 (limit - Z.of_nat (length (filter (fun t => cutoffTime < t) timestamps)))
  end.

(** [cleanup()]: keeps the live timestamps of every key and drops the keys
    left with none. *)
Definition cleanup (storage : gmap string (list Z)) (ms : Z)
    : gmap string (list Z) :=
  let now := ms / 1000 in
  let cutoffTime := now - interval in
  omap (fun timestamps =>
          match filter (fun t => cutoffTime < t) timestamps with
          | [] => None
          | validTimestamps => Some validTimestamps
          end) storage.

(** [getActiveRequests(key)] *)
Definition getActiveRequests (storage : gmap string (list Z)) (key : string)
    (ms : Z) : Z :=
  let now := ms / 1000 in
  let cutoffTime := now - interval in
  match storage !! key with
  | None => 0
  | Some timestamps => Z.of_nat (length (filter (fun t => cutoffTime < t) timestamps))
  end.

End MemorySlidingLog.
End Mem.

Module Redis.

(** A sorted set as the list of its (member, score) pairs, scores in
    milliseconds.  The key's TTL ([EXPIRE key interval] after each
    accepted request) only removes entries that every later call prunes
    anyway, so it is left out. *)
Definition ZSet := list (string * Z).

(** [ZREMRANGEBYSCORE key -inf max]: removes the scores [<= max]. *)
Definition zremrangebyscore (z : ZSet) (max : Z) : ZSet :=
  filter (fun e => max < e.2) z.

(** [ZADD key score member]: a member already present gets the new score. *)
Definition zadd (z : ZSet) (score : Z) (member : string) : ZSet :=
  filter (fun e => e.1 <> member) z ++ [(member, score)].

(** [ZCARD key] *)
Definition zcard (z : ZSet) : Z := Z.of_nat (length z).

(** An empty sorted set does not exist in Redis. *)
Definition store_zset (k : string) (z : ZSet) (store : gmap string ZSet)
    : gmap string ZSet :=
  match z with [] => delete k store | _ => <[k := z]> store end.

Section IORedisSlidingLog.
Variables limit interval : Z.

Definition interval_ms : Z := 1000 * interval.

(** Lua script [consumeSlidingLog] *)
Definition consumeSlidingLog (z : ZSet) (current_time : Z) (request_id : string)
    : (Z * Z) * ZSet :=
  let min_score := current_time - interval_ms in
  let z1 := zremrangebyscore z min_score in
  let count := zcard z1 in
  if count <? limit then ((1, limit - (count + 1)), zadd z1 current_time request_id)
  else ((0, 0), z1).

(** Lua script [getSlidingLog] *)
Definition getSlidingLog (z : ZSet) (current_time : Z) : Z * ZSet :=
  let min_score := current_time - interval_ms in
  let z1 := zremrangebyscore z min_score in
  let count := zcard z1 in
  let remaining := limit - count in
  (if remaining <? 0 then 0 else remaining, z1).

Definition PREFIX : string := "sliding_log".

(** [public async consume(key, uniqueRequestId?)]; [requestId] is the
    caller's id or the generated one. *)
Definition consume (store : gmap string ZSet) (key : string) (requestId : string)
    (ms : Z) : SlidingLogResult * gmap string ZSet :=
  let k := PREFIX +:+ ":" +:+ key in
  let '((succ, remaining), z') := consumeSlidingLog (default [] (store !! k)) ms requestId in
  ({| success := Z.eqb succ 1; remaining := remaining |}, store_zset k z' store).

(** [public async getRemaining(key)] *)
Definition getRemaining (store : gmap string ZSet) (key : string) (ms : Z)
    : Z * gmap string ZSet :=
  let k := PREFIX +:+ ":" +:+ key in
  let '(remaining, z') := getSlidingLog (default [] (store !! k)) ms in
  (remaining, store_zset k z' store).

End IORedisSlidingLog.
End Redis.

End SlidingLog.

(* ===================================================================== *)
(** ** Leaky bucket ([src/src/memory/MemoryLeakyBucket.ts], first class,
       and [src/unnamed/part_002], [IORedisLeakyBucketRateLimiter]) *)
(* ===================================================================== *)

Module LeakyBucket.

(** [LeakyBucketResult] *)
Record LeakyBucketResult := {
  success : bool;
  remaining : Z
}.

(** [LeakyBucketState] *)
Record LeakyBucketState := {
  size : Z;
  stateRemaining : Z
}.

Module Mem.

(** [interface QueueItem] *)
Record QueueItem := { expiresAt : Z }.

(** [interface QueueState] *)
Record QueueState := { items : list QueueItem }.

Section MemoryLeakyBucket.
Variables capacity interval : Z.

(** [private getOrCreateQueue(key)] *)
Definition getOrCreateQueue (queues : gmap string QueueState) (key : string)
    : QueueState * gmap string QueueState :=
  match queues !! key with
  | Some q => (q, queues)
  | None => let q := {| items := [] |} in (q, <[key := q]> queues)
  end.

(** [private cleanupExpired(queue, now)] *)
Definition cleanupExpired (q : QueueState) (now : Z) : QueueState :=
  {| items := filter (fun item => now < expiresAt item) (items q) |}.

(** [async consume(key)]: the queue object lives in the map, so the
    cleanup is stored on both branches. *)
Definition consume (queues : gmap string QueueState) (key : string) (ms : Z)
    : LeakyBucketResult * gmap string QueueState :=
  let now := ms / 1000 in
  let '(q0, queues1) := getOrCreateQueue queues key in
  let q := cleanupExpired q0 now in
  if capacity <=? Z.of_nat (length (items q)) then
    ({| success := false; remaining := 0 |}, <[key := q]> queues1)
  else
    let expiresAt := now + interval in
    let q' := {| items := items q ++ [{| expiresAt := expiresAt |}] |} in
    ({| success := true; remaining := capacity - Z.of_nat (length (items q')) |},
     <[key := q']> queues1).

(** [async getState(key)] *)
Definition getState (queues : gmap string QueueState) (key : string) (ms : Z)
    : LeakyBucketState * gmap string QueueState :=
  let now := ms / 1000 in
  let '(q0, queues1) := getOrCreateQueue queues key in
  let q := cleanupExpired q0 now in
  let sz := Z.of_nat (length (items q)) in
  ({| size := sz; stateRemaining := Z.max 0 (capacity - sz) |},
   <[key := q]> queues1).

(** [cleanupAllExpired()]: cleans every queue and drops the empty ones. *)
Definition cleanupAllExpired (queues : gmap string QueueState) (ms : Z)
    : gmap string QueueState :=
  let now := ms / 1000 in
  omap (fun queue =>
          let q := cleanupExpired queue now in
          if Nat.eqb (length (items q)) 0 then None else Some q) queues.

End MemoryLeakyBucket.
End Mem.

Module Redis.

(** A Redis list with its expiry time (milliseconds); Redis treats the key
    as absent once the clock is past the expiry time. *)
Record RList := {
  elems : list string;
  expireAt : Z
}.

Definition live (store : gmap string RList) (k : string) (ms : Z) : list string :=
  match store !! k with
  | Some l => if ms <=? expireAt l then elems l else []
  | None => []
  end.

Definition PREFIX : string := "leaky_bucket".

Section IORedisLeakyBucket.
Variables capacity interval : Z.

(** [public async consume(key, uniqueRequestId?)] with the Lua script
    [consumeLeakyBucket] ([LLEN], then [RPUSH] and [EXPIRE key interval]);
    [ms] is the server's clock. *)
Definition consume (store : gmap string RList) (key : string)
    (request_id : string) (ms : Z) : LeakyBucketResult * gmap string RList :=
  let k := PREFIX +:+ ":" +:+ key in
  let l := live store k ms in
  let len := Z.of_nat (length l) in
  if len <? capacity then
    ({| success := true; remaining := capacity - (len + 1) |},
     <[k := {| elems := l ++ [request_id]; expireAt := ms + 1000 * interval |}]> store)
  else ({| success := false; remaining := 0 |}, store).

(** [public async getState(key)] with the Lua script [getStateLeakyBucket]. *)
Definition getState (store : gmap string RList) (key : string) (ms : Z)
    : LeakyBucketState :=
  let k := PREFIX +:+ ":" +:+ key in
  let len := Z.of_nat (length (live store k ms)) in
  let remaining := capacity - len in
  {| size := len; stateRemaining := if remaining <? 0 then 0 else remaining |}.

End IORedisLeakyBucket.
End Redis.

End LeakyBucket.

(* ===================================================================== *)
(** ** Throttling ([src/unnamed/part_009], [MemoryThrottling], and
       [src/unnamed/part_001], [IORedisThrottlingRateLimiter]) *)
(* ===================================================================== *)

Module Throttling.

(** [ThrottlingResult] *)
Record ThrottlingResult := {
  success : bool;
  waitTime : Z;
  nextAllowedAt : Z
}.

Module Mem.

Section MemoryThrottling.
(** [minInterval] in milliseconds. *)
Variable minInterval : Z.

(** [this.lastRequestTimes.get(key) || 0] *)
Definition lastRequestTime (lastRequestTimes : gmap string Z) (key : string) : Z :=
  default 0 (lastRequestTimes !! key).

(** [async throttle(key)]; [now] is [Date.now()]. *)
Definition throttle (lastRequestTimes : gmap string Z) (key : string) (now : Z)
    : ThrottlingResult * gmap string Z :=
  let last := lastRequestTime lastRequestTimes key in
  let timeSinceLastRequest := now - last in
  let waitTime := Z.max 0 (minInterval - timeSinceLastRequest) in
  if Z.eqb waitTime 0 then
    ({| success := true; waitTime := 0; nextAllowedAt := now |},
     <[key := now]> lastRequestTimes)
  else
    ({| success := false; waitTime := waitTime;
        nextAllowedAt := last + minInterval |}, lastRequestTimes).

(** [async getStatus(key)]: nothing is written. *)
Definition getStatus (lastRequestTimes : gmap string Z) (key : string) (now : Z)
    : ThrottlingResult * gmap string Z :=
  let last := lastRequestTime lastRequestTimes key in
  let timeSinceLastRequest := now - last in
  let waitTime := Z.max 0 (minInterval - timeSinceLastRequest) in
  if Z.eqb waitTime 0 then
    ({| success := true; waitTime := 0; nextAllowedAt := now |}, lastRequestTimes)
  else
    ({| success := false; waitTime := waitTime;
        nextAllowedAt := last + minInterval |}, lastRequestTimes).

End MemoryThrottling.
End Mem.

Module Redis.

Definition PREFIX : string := "pvrl-throttling".

Section IORedisThrottling.
Variables (name : string) (minInterval : Z).

(** Lua script [throttleRequest]: reply and value written ([SET key
    current_time]; its TTL of [minInterval + 60] seconds only drops a value
    that no longer throttles anything, so it is left out). *)
Definition throttleRequest (stored : option Z) (current_time : Z)
    : (Z * Z * Z) * option Z :=
  let last_request_time := default 0 stored in
  let time_since_last := current_time - last_request_time in
  if time_since_last <? minInterval then
    ((0, minInterval - time_since_last, last_request_time + minInterval), stored)
  else ((1, 0, current_time), Some current_time).

(** Lua script [getThrottleStatus] *)
Definition getThrottleStatus (stored : option Z) (current_time : Z) : Z * Z * Z :=
  let last_request_time := default 0 stored in
  let time_since_last := current_time - last_request_time in
  if time_since_last <? minInterval then
    (0, minInterval - time_since_last, last_request_time + minInterval)
  else (1, 0, current_time).

Definition toResult (r : Z * Z * Z) : ThrottlingResult :=
  let '(s, w, n) := r in
  {| success := Z.eqb s 1; waitTime := w; nextAllowedAt := n |}.

(** [public async throttle(key)] *)
Definition throttle (store : gmap string Z) (key : string) (now : Z)
    : ThrottlingResult * gmap string Z :=
  let k := getKey PREFIX name key in
  let '(r, v) := throttleRequest (store !! k) now in
  (toResult r, match v with Some t => <[k := t]> store | None => store end).

(** [public async getStatus(key)] *)
Definition getStatus (store : gmap string Z) (key : string) (now : Z)
    : ThrottlingResult * gmap string Z :=
  (toResult (getThrottleStatus (store !! getKey PREFIX name key) now), store).

End IORedisThrottling.
End Redis.

End Throttling.

(* ===================================================================== *)
(** * Properties *)
(* ===================================================================== *)

(** ** Double-precision numbers *)

Section DoubleFacts.

(** Not below zero: [+0], [-0], a positive finite number, [+Infinity] or
    NaN. *)
Definition not_negative (f : Double.t) : Prop :=
  match f with
  | SpecFloat.S754_finite true _ _ | SpecFloat.S754_infinity true => False
  | _ => True
  end.

Lemma floor_not_negative (f : Double.t) : not_negative f -> 0 <= Double.floor f.
Proof.
  destruct f as [s|s| |[] m e]; cbn; try lia; intros _.
  destruct (Z.leb_spec 0 e).
  - apply Z.mul_nonneg_nonneg; [lia|apply Z.pow_nonneg; lia].
  - apply Z.div_pos; [lia|apply Z.pow_pos_nonneg; lia].
Qed.

Lemma round_aux_not_negative mx ex lx :
  not_negative (SpecFloat.binary_round_aux Double.prec Double.emax false mx ex lx).
Proof.
  unfold SpecFloat.binary_round_aux.
  destruct (SpecFloat.shr_fexp _ _ _ _ _) as [mrs' e'].
  destruct (SpecFloat.shr_fexp _ _ _ _ _) as [mrs'' e''].
  destruct (SpecFloat.shr_m mrs''); cbn; trivial.
  destruct (e'' <=? _); exact I.
Qed.

Lemma of_Z_not_negative (p : Z) : 0 <= p -> not_negative (Double.of_Z p).
Proof.
  intros Hp. unfold Double.of_Z, SpecFloat.binary_normalize.
  destruct p as [|m|m]; [exact I| |lia].
  unfold SpecFloat.binary_round. destruct (SpecFloat.shl_align _ _ _) as [mz ez].
  apply round_aux_not_negative.
Qed.

Lemma max0_not_negative (f : Double.t) : not_negative (Double.max0 f).
Proof. destruct f as [[]|[]| |[] m e]; exact I. Qed.

Lemma mul_not_negative (x y : Double.t) :
  not_negative x -> not_negative y -> not_negative (Double.mul x y).
Proof.
  destruct x as [[]|[]| |[] mx ex]; destruct y as [[]|[]| |[] my ey];
    cbn; try tauto; intros _ _; apply round_aux_not_negative.
Qed.

(** A product with the number [0] floors to 0. *)
Lemma floor_mul_zero_l (y : Double.t) : Double.floor (Double.mul (Double.of_Z 0) y) = 0.
Proof. destruct y as [[]|[]| |[] m e]; reflexivity. Qed.

End DoubleFacts.

(** ** Token bucket *)

Section TokenBucketFacts.
Import TokenBucket.

(** The Redis refill reads as the cycle count rule: with
    [cycles = floor(elapsed / refillInterval)], a refill happens exactly
    when [cycles > 0], and the anchor advances by [cycles] intervals. *)
Lemma redis_refill_cycles (c : Config) (h : Redis.BucketHash) (t : Z) :
  0 < refillInterval c ->
  Redis.refill c (Some h) t =
  (let cycles := (t - Redis.h_last_updated h) / Redis.refill_interval_ms c in
   if 0 <? cycles then
     (Z.min (capacity c) (Redis.h_tokens h + cycles * refillAmount c),
      Redis.h_last_updated h + cycles * Redis.refill_interval_ms c)
   else (Redis.h_tokens h, Redis.h_last_updated h)).
Proof.
  intros Hi. unfold Redis.refill. cbn zeta.
  assert (Hms : 0 < Redis.refill_interval_ms c) by (unfold Redis.refill_interval_ms; lia).
  set (e := t - Redis.h_last_updated h). set (i := Redis.refill_interval_ms c).
  destruct (Z.leb_spec i e) as [Hle | Hlt].
  - assert (1 <= e / i) by (apply Z.div_le_lower_bound; lia).
    destruct (Z.ltb_spec 0 (e / i)); [reflexivity | lia].
  - assert (e / i < 1) by (apply Z.div_lt_upper_bound; lia).
    destruct (Z.ltb_spec 0 (e / i)); [lia | reflexivity].
Qed.

(** A bucket whose token count is in [0, capacity] keeps it through the
    refill of the in-memory backend. *)
Lemma mem_refill_bounds (c : Config) (b : Mem.BucketState) (now : Z) :
  valid_config c -> 0 <= Mem.tokens b <= capacity c ->
  0 <= Mem.tokens (Mem.refillBucket c b now) <= capacity c.
Proof.
  intros (Hc & Ha & Hi) Hb. unfold Mem.refillBucket. cbn zeta.
  destruct (Z.ltb_spec 0 ((now - Mem.lastRefill b) / refillInterval c)); cbn; [nia | lia].
Qed.

(** The bucket that [getOrCreateBucket] yields keeps the token bounds of
    the map. *)
Lemma mem_getOrCreate_bounds (c : Config) (buckets : gmap string Mem.BucketState)
    (key : string) (now : Z) :
  0 < capacity c ->
  (forall b, buckets !! key = Some b -> 0 <= Mem.tokens b <= capacity c) ->
  0 <= Mem.tokens (Mem.getOrCreateBucket c buckets key now).1 <= capacity c.
Proof.
  intros Hc Hb. unfold Mem.getOrCreateBucket.
  destruct (buckets !! key) eqn:E; cbn; [apply Hb; reflexivity | lia].
Qed.

End TokenBucketFacts.

Section TokenBucketClaims.
Import TokenBucket.

(** C1 (code_bug).  The claim: every access refills with
    [cycles = floor((now - lastRefill) / refillInterval)] and advances
    [lastRefill] by exactly [cycles * refillInterval], never to [now]; in
    particular (capacity 10, refill 2 per second) [getRemainingTokens]
    reports 2 tokens 1.1 seconds after [consume(10)].  The Redis scripts do
    this ([redis_refill_cycles]); the in-memory [refillBucket] sets
    [lastRefill := now].  With a 2 second interval and [lastRefill = 100],
    a read at second 103 stores [lastRefill = 103] (the claim: 102) and
    reports the next refill at 105 (the claim: 104), where the Redis
    backend stores 102 and reports 104.  And the in-memory backend reports
    4 tokens, not 2, when [consume(10)] runs at 100.9 s and the read runs
    1.1 s later. *)
Theorem C1_memory_refill_resets_anchor :
  let c := {| capacity := 10; refillAmount := 2; refillInterval := 2 |} in
  Mem.getRemainingTokens c {["k" := {| Mem.tokens := 0; Mem.lastRefill := 100 |}]} "k" 103000
  = ({| countRemainingTokens := 2; countNextRefillAt := 105 |},
     {["k" := {| Mem.tokens := 2; Mem.lastRefill := 103 |}]})
  /\ Redis.getRemainingTokens c
       {[Redis.redisKey "k" := {| Redis.h_tokens := 0; Redis.h_last_updated := 100000 |}]}
       "k" 103000
     = ({| countRemainingTokens := 2; countNextRefillAt := 104 |},
        {[Redis.redisKey "k" := {| Redis.h_tokens := 2; Redis.h_last_updated := 102000 |}]})
  /\ (let c1 := {| capacity := 10; refillAmount := 2; refillInterval := 1 |} in
      match Mem.consume c1 ∅ "k" 10 100900 with
      | Ok (r, s) =>
          success r = true /\ remainingTokens r = 0 /\
          countRemainingTokens (Mem.getRemainingTokens c1 s "k" 102000).1 = 4
      | Throws _ => False
      end).
Proof. vm_compute. repeat split; reflexivity. Qed.

(** C4 (code_bug).  The claim: [consume] with a negative amount raises an
    invalid-argument error in every backend and leaves the token count
    alone.  The in-memory backend throws; the Redis backend has no check:
    [consume(key, -5)] on a new bucket of capacity 10 succeeds, reports
    15 tokens and stores 15 tokens. *)
Theorem C4_redis_negative_consume :
  let c := {| capacity := 10; refillAmount := 2; refillInterval := 1 |} in
  (exists msg, Mem.consume c ∅ "k" (-5) 100000 = Throws msg)
  /\ Redis.consume c ∅ "k" (-5) 100000
     = ({| success := true; remainingTokens := 15; nextRefillAt := 101 |},
        {[Redis.redisKey "k" := {| Redis.h_tokens := 15; Redis.h_last_updated := 100000 |}]}).
Proof. split; [eexists; reflexivity | vm_compute; reflexivity]. Qed.

(** C3 (code_bug).  The claim: every reported remaining value lies in
    [0, limit]; for the token bucket in [0, capacity].  The Redis token
    bucket's [consume(key, -5)] on a new bucket of capacity 10 reports 15
    remaining tokens (the same missing argument check as C4). *)
Theorem C3_redis_remaining_above_capacity :
  let c := {| capacity := 10; refillAmount := 2; refillInterval := 1 |} in
  capacity c < remainingTokens (Redis.consume c ∅ "k" (-5) 100000).1.
Proof. vm_compute. reflexivity. Qed.

(** C5, counterexample.  The claim: [addTokens] with an amount [<= 0]
    never fails.  The in-memory [addTokens(key, 0)] throws. *)
Lemma C5_memory_addTokens_zero_throws :
  Mem.addTokens {| capacity := 10; refillAmount := 2; refillInterval := 1 |} ∅ "k" 0 100000
  = Throws "Amount to add must be greater than 0".
Proof. reflexivity. Qed.

End TokenBucketClaims.

Section TokenBucketAdjust.
Import TokenBucket.

(** C5, as amended.  With an amount [<= 0], the Redis [addTokens] and
    [removeTokens] return without any effect and the in-memory ones throw
    (before touching the map).  With a positive amount, the in-memory
    backend first applies the pending refill and then stores
    [min(capacity, tokens + amount)] (resp. [max(0, tokens - amount)]);
    in both backends the stored count stays in [0, capacity] when it was
    there before. *)
Theorem C5_add_remove_tokens_amended (c : Config) :
  valid_config c ->
  (forall store key amount ms, amount <= 0 ->
     Redis.addTokens c store key amount ms = Ok store /\
     Redis.removeTokens c store key amount ms = Ok store)
  /\ (forall buckets key amount ms, amount <= 0 ->
     (exists msg, Mem.addTokens c buckets key amount ms = Throws msg) /\
     (exists msg, Mem.removeTokens c buckets key amount ms = Throws msg))
  /\ (forall buckets key amount ms, 0 < amount ->
     let now := ms / 1000 in
     let b := Mem.refillBucket c (Mem.getOrCreateBucket c buckets key now).1 now in
     Mem.addTokens c buckets key amount ms =
       Ok (<[key := {| Mem.tokens := Z.min (capacity c) (Mem.tokens b + amount);
                       Mem.lastRefill := Mem.lastRefill b |}]> buckets) /\
     Mem.removeTokens c buckets key amount ms =
       Ok (<[key := {| Mem.tokens := Z.max 0 (Mem.tokens b - amount);
                       Mem.lastRefill := Mem.lastRefill b |}]> buckets) /\
     ((forall b0, buckets !! key = Some b0 -> 0 <= Mem.tokens b0 <= capacity c) ->
      0 <= Z.min (capacity c) (Mem.tokens b + amount) <= capacity c /\
      0 <= Z.max 0 (Mem.tokens b - amount) <= capacity c))
  /\ (forall store key amount ms, 0 < amount ->
     (forall h, store !! Redis.redisKey key = Some h ->
        0 <= Redis.h_tokens h <= capacity c) ->
     (forall store', Redis.addTokens c store key amount ms = Ok store' ->
        exists h, store' !! Redis.redisKey key = Some h /\
                  0 <= Redis.h_tokens h <= capacity c) /\
     (forall store', Redis.removeTokens c store key amount ms = Ok store' ->
        exists h, store' !! Redis.redisKey key = Some h /\
                  0 <= Redis.h_tokens h <= capacity c)).
Proof.
  intros Hc. pose proof Hc as (Hcap & Ha & Hi).
  split; [|split; [|split]].
  - intros store key amount ms Hle. unfold Redis.addTokens, Redis.removeTokens.
    destruct (Z.leb_spec amount 0); [split; reflexivity | lia].
  - intros buckets key amount ms Hle. unfold Mem.addTokens, Mem.removeTokens.
    destruct (Z.leb_spec amount 0); [split; eexists; reflexivity | lia].
  - intros buckets key amount ms Hpos. cbn zeta.
    assert (Hins : forall x, <[key := x]> (Mem.getOrCreateBucket c buckets key (ms / 1000)).2
                             = <[key := x]> buckets).
    { intros x. unfold Mem.getOrCreateBucket.
      destruct (buckets !! key); cbn; [reflexivity | apply insert_insert_eq]. }
    destruct (Mem.getOrCreateBucket c buckets key (ms / 1000)) as [b0 buckets1] eqn:E.
    cbn in Hins. cbn.
    unfold Mem.addTokens, Mem.removeTokens. cbn zeta.
    destruct (Z.leb_spec amount 0); [lia|].
    rewrite E, !Hins. split; [reflexivity | split; [reflexivity|]].
    intros Hb.
    assert (Hb0 : 0 <= Mem.tokens b0 <= capacity c).
    { change b0 with (b0, buckets1).1. rewrite <- E.
      apply mem_getOrCreate_bounds; assumption. }
    pose proof (mem_refill_bounds c b0 (ms / 1000) Hc Hb0). lia.
  - intros store key amount ms Hpos Hb. split; intros store' Hst;
      unfold Redis.addTokens, Redis.removeTokens in Hst;
      (destruct (Z.leb_spec amount 0); [lia|]); injection Hst as <-;
      eexists; rewrite lookup_insert_eq; split; [reflexivity| |reflexivity|];
      unfold Redis.addScript, Redis.removeScript;
      destruct (store !! Redis.redisKey key) eqn:E; cbn;
      try (specialize (Hb _ eq_refl)); lia.
Qed.

End TokenBucketAdjust.

(** Witness of C5 at capacity 10, refill 2 per second. *)
Lemma C5_add_remove_tokens_amended_witness :
  TokenBucket.valid_config {| TokenBucket.capacity := 10; TokenBucket.refillAmount := 2;
                              TokenBucket.refillInterval := 1 |}
  /\ TokenBucket.Redis.addTokens {| TokenBucket.capacity := 10; TokenBucket.refillAmount := 2;
                                    TokenBucket.refillInterval := 1 |} ∅ "k" 0 100000 = Ok ∅.
Proof.
  assert (H : TokenBucket.valid_config {| TokenBucket.capacity := 10; TokenBucket.refillAmount := 2;
                                          TokenBucket.refillInterval := 1 |})
    by (unfold TokenBucket.valid_config; cbn; lia).
  split; [exact H|].
  destruct (C5_add_remove_tokens_amended _ H) as [H1 _].
  apply (H1 ∅ "k" 0 100000). lia.
Defined.

(** ** Read paths *)

Section ReadPathFacts.
Import TokenBucket.




End ReadPathFacts.

Section ReadPathStore.
Import TokenBucket.





Lemma zremrangebyscore_idem (z : SlidingLog.Redis.ZSet) (m : Z) :
  SlidingLog.Redis.zremrangebyscore (SlidingLog.Redis.zremrangebyscore z m) m
  = SlidingLog.Redis.zremrangebyscore z m.
Proof. unfold SlidingLog.Redis.zremrangebyscore. apply list_filter_filter_l. auto. Qed.




End ReadPathStore.

Section ReadPathClaims.
Import TokenBucket.



End ReadPathClaims.


(** ** Leaky bucket *)

Section LeakyBucketClaims.
Import LeakyBucket.

(** C6, counterexample.  The claim: an admitted request returns
    [remaining = capacity - size], [size] the queue size after the expired
    entries are dropped, and every access drops the entries whose expiry
    has passed.  On an empty queue of capacity 5 the in-memory [consume]
    returns [remaining = 4], and the Redis list keeps an entry admitted at
    0 s after its 60 s have passed when a second one came at 30 s: at
    61 s [getState] still counts 2 entries. *)
Lemma C6_leaky_remaining_and_expiry :
  (Mem.consume 5 60 ∅ "k" 0).1 = {| success := true; remaining := 4 |}
  /\ (let s1 := (Redis.consume 5 60 ∅ "k" "r1" 0).2 in
      let s2 := (Redis.consume 5 60 s1 "k" "r2" 30000).2 in
      Redis.getState 5 s2 "k" 61000 = {| size := 2; stateRemaining := 3 |}).
Proof. vm_compute. split; reflexivity. Qed.

(** C6, as amended.  In-memory backend: every [consume] drops the entries
    with [expiresAt <= now] and admits iff the remaining size is below the
    capacity, storing the new entry with [expiresAt = now + interval] and
    returning [remaining = capacity - (size + 1)]; otherwise it rejects with
    [remaining = 0].  Every [getState] first drops the same entries, stores
    the cleaned queue and reports its size and [max 0 (capacity - size)].
    Redis backend: same admission rule and replies, but
    the entries do not expire one by one: after an admission at [ms], the
    whole list is there up to [ms + interval] and gone after it. *)
Theorem C6_leaky_bucket_amended :
  (forall capacity interval (queues : gmap string Mem.QueueState) key ms,
     let now := ms / 1000 in
     let q := filter (fun item => now < Mem.expiresAt item)
                (Mem.items (default {| Mem.items := [] |} (queues !! key))) in
     let sz := Z.of_nat (length q) in
     Mem.consume capacity interval queues key ms =
       if sz <? capacity then
         ({| success := true; remaining := capacity - (sz + 1) |},
          <[key := {| Mem.items := q ++ [{| Mem.expiresAt := now + interval |}] |}]> queues)
       else ({| success := false; remaining := 0 |}, <[key := {| Mem.items := q |}]> queues))
  /\ (forall capacity (queues : gmap string Mem.QueueState) key ms,
     let now := ms / 1000 in
     let q := filter (fun item => now < Mem.expiresAt item)
                (Mem.items (default {| Mem.items := [] |} (queues !! key))) in
     let sz := Z.of_nat (length q) in
     Mem.getState capacity queues key ms =
       ({| size := sz; stateRemaining := Z.max 0 (capacity - sz) |},
        <[key := {| Mem.items := q |}]> queues))
  /\ (forall capacity interval (store : gmap string Redis.RList) key rid ms,
     let k := Redis.PREFIX +:+ ":" +:+ key in
     let len := Z.of_nat (length (Redis.live store k ms)) in
     (Redis.consume capacity interval store key rid ms).1 =
       (if len <? capacity then {| success := true; remaining := capacity - (len + 1) |}
        else {| success := false; remaining := 0 |})
     /\ (len < capacity ->
         forall ms',
         Redis.live (Redis.consume capacity interval store key rid ms).2 k ms'
         = if ms' <=? ms + 1000 * interval then Redis.live store k ms ++ [rid] else [])).
Proof.
  split; [|split].
  - intros capacity interval queues key ms. cbn zeta.
    unfold Mem.consume, Mem.getOrCreateQueue. cbn zeta.
    destruct (queues !! key) as [q0|] eqn:E; cbn.
    + destruct (Z.leb_spec capacity
                 (Z.of_nat (length (filter (fun item => ms / 1000 < Mem.expiresAt item)
                                           (Mem.items q0))))) as [Hle|Hlt].
      * destruct (Z.ltb_spec (Z.of_nat (length (filter (fun item => ms / 1000 < Mem.expiresAt item)
                                           (Mem.items q0)))) capacity); [lia|reflexivity].
      * destruct (Z.ltb_spec (Z.of_nat (length (filter (fun item => ms / 1000 < Mem.expiresAt item)
                                           (Mem.items q0)))) capacity); [|lia].
        rewrite length_app. cbn [length]. f_equal. f_equal. lia.
    + rewrite !insert_insert_eq. change (Z.of_nat 0) with 0.
      destruct (Z.leb_spec capacity 0) as [H|H].
      * rewrite (proj2 (Z.ltb_ge 0 capacity) H). reflexivity.
      * rewrite (proj2 (Z.ltb_lt 0 capacity) H). reflexivity.
  - intros capacity queues key ms. cbn zeta.
    unfold Mem.getState, Mem.getOrCreateQueue. cbn zeta.
    destruct (queues !! key) as [q0|] eqn:E; cbn.
    + reflexivity.
    + rewrite insert_insert_eq. reflexivity.
  - intros capacity interval store key rid ms. cbn zeta.
    unfold Redis.consume. cbn zeta.
    destruct (Z.ltb_spec (Z.of_nat (length (Redis.live store (Redis.PREFIX +:+ ":" +:+ key) ms)))
                capacity) as [Hlt|Hge]; cbn.
    + split; [reflexivity|]. intros _ ms'.
      unfold Redis.live at 1. rewrite lookup_insert_eq. cbn. reflexivity.
    + split; [reflexivity|]. intros; lia.
Qed.

End LeakyBucketClaims.


(** Witness of C6: one admission into an empty Redis list of capacity 5,
    still there at 60 s and gone at 60.001 s. *)
Lemma C6_leaky_bucket_amended_witness :
  LeakyBucket.Redis.live (LeakyBucket.Redis.consume 5 60 ∅ "k" "r1" 0).2
    (LeakyBucket.Redis.PREFIX +:+ ":" +:+ "k") 60000
  = ["r1"]
  /\ LeakyBucket.Redis.live (LeakyBucket.Redis.consume 5 60 ∅ "k" "r1" 0).2
    (LeakyBucket.Redis.PREFIX +:+ ":" +:+ "k") 60001
  = [].
Proof.
  destruct C6_leaky_bucket_amended as (_ & _ & H).
  destruct (H 5 60 ∅ "k" "r1" 0) as [_ H2].
  split.
  - rewrite (H2 ltac:(vm_compute; reflexivity) 60000). reflexivity.
  - rewrite (H2 ltac:(vm_compute; reflexivity) 60001). reflexivity.
Defined.

(** ** Fixed window *)

Section FixedWindowFacts.

Lemma fixed_remaining_max (limit cnt : Z) :
  (if limit - cnt <? 0 then 0 else limit - cnt) = Z.max 0 (limit - cnt).
Proof. destruct (Z.ltb_spec (limit - cnt) 0); lia. Qed.

End FixedWindowFacts.

Section FixedWindowClaims.

(** Counterexample to C7: in the in-memory backend a rejected consume does
    not increment the counter.  With limit 1, a window already holding one
    request at the current window start stays at count 1 after a rejected
    consume (the claim's counter would read 2). *)
Lemma C7_memory_rejection_keeps_count :
  let st : gmap string FixedWindow.Mem.WindowData :=
    {[ "k" := {| FixedWindow.Mem.count := 1; FixedWindow.Mem.windowStart := 0 |} ]} in
  FixedWindow.Mem.consume 1 60 st "k" 30000
  = ({| FixedWindow.success := false; FixedWindow.remaining := 0 |}, st).
Proof. vm_compute. reflexivity. Qed.

(** C7 (amended).  Let [c] be the count of the current window (0 when the
    key is unseen or its stored window is an older one).  Both backends
    reply success iff [c + 1 <= limit], with remaining
    [max 0 (limit - (c + 1))].  The Redis backend always stores [c + 1]
    under the current window's key; the in-memory backend stores
    [{count := c + 1; windowStart := current window start}] only on
    success and leaves its map unchanged on rejection.  With limit 10 and
    interval 60 s, ten consumes at t = 0 succeed with remaining 9 down to
    0, the eleventh fails with remaining 0, and a consume at t = 60
    succeeds with remaining 9, in both backends. *)
Theorem C7_fixed_window_amended :
  (forall limit interval (storage : gmap string FixedWindow.Mem.WindowData) key ms,
     let ws := FixedWindow.Mem.getWindowStart interval (ms / 1000) in
     let c := match storage !! key with
              | Some w => if FixedWindow.Mem.windowStart w =? ws
                          then FixedWindow.Mem.count w else 0
              | None => 0
              end in
     FixedWindow.Mem.consume limit interval storage key ms =
       ({| FixedWindow.success := c + 1 <=? limit;
           FixedWindow.remaining := Z.max 0 (limit - (c + 1)) |},
        if c + 1 <=? limit
        then <[key := {| FixedWindow.Mem.count := c + 1;
                         FixedWindow.Mem.windowStart := ws |}]> storage
        else storage))
  /\ (forall name limit interval (store : FixedWindow.Redis.Store) key ms,
     let k := FixedWindow.Redis.windowKey name interval key ms in
     let c := default 0 (store !! k) in
     FixedWindow.Redis.consume name limit interval store key ms =
       ({| FixedWindow.success := c + 1 <=? limit;
           FixedWindow.remaining := Z.max 0 (limit - (c + 1)) |},
        <[k := c + 1]> store))
  /\ (fold_left (fun '(rs, s) ms =>
        let '(r, s') := FixedWindow.Mem.consume 10 60 s "k" ms in (rs ++ [r], s'))
        (repeat 0 11 ++ [60000]) ([], ∅)).1
     = map (fun '(b, r) => {| FixedWindow.success := b; FixedWindow.remaining := r |})
         [(true, 9); (true, 8); (true, 7); (true, 6); (true, 5); (true, 4);
          (true, 3); (true, 2); (true, 1); (true, 0); (false, 0); (true, 9)]
  /\ (fold_left (fun '(rs, s) ms =>
        let '(r, s') := FixedWindow.Redis.consume "api" 10 60 s "k" ms in (rs ++ [r], s'))
        (repeat 0 11 ++ [60000]) ([], ∅)).1
     = map (fun '(b, r) => {| FixedWindow.success := b; FixedWindow.remaining := r |})
         [(true, 9); (true, 8); (true, 7); (true, 6); (true, 5); (true, 4);
          (true, 3); (true, 2); (true, 1); (true, 0); (false, 0); (true, 9)].
Proof.
  split; [|split; [|split]].
  - intros limit interval storage key ms. cbn zeta.
    unfold FixedWindow.Mem.consume. cbn zeta.
    destruct (storage !! key) as [w|] eqn:E.
    + destruct (Z.eqb_spec (FixedWindow.Mem.windowStart w)
                  (FixedWindow.Mem.getWindowStart interval (ms / 1000))) as [Hw|Hw]; cbn.
      * destruct (Z.leb_spec limit (FixedWindow.Mem.count w)) as [H|H].
        -- rewrite (proj2 (Z.leb_gt (FixedWindow.Mem.count w + 1) limit) ltac:(lia)).
           f_equal. f_equal. lia.
        -- rewrite (proj2 (Z.leb_le (FixedWindow.Mem.count w + 1) limit) ltac:(lia)).
           rewrite <- Hw. f_equal. f_equal. lia.
      * destruct (Z.leb_spec limit 0) as [H|H].
        -- rewrite (proj2 (Z.leb_gt (0 + 1) limit) ltac:(lia)).
           f_equal. f_equal. lia.
        -- rewrite (proj2 (Z.leb_le (0 + 1) limit) ltac:(lia)).
           f_equal. f_equal. lia.
    + cbn. destruct (Z.leb_spec limit 0) as [H|H].
      * rewrite (proj2 (Z.leb_gt (0 + 1) limit) ltac:(lia)).
        f_equal. f_equal. lia.
      * rewrite (proj2 (Z.leb_le (0 + 1) limit) ltac:(lia)).
        f_equal. f_equal. lia.
  - intros name limit interval store key ms. cbn zeta.
    unfold FixedWindow.Redis.consume, FixedWindow.Redis.consumeFixedWindow. cbn zeta.
    rewrite fixed_remaining_max.
    destruct (Z.ltb_spec limit (default 0 (store !! FixedWindow.Redis.windowKey name interval key ms) + 1)) as [H|H];
      cbn [Z.eqb Pos.eqb].
    + rewrite (proj2 (Z.leb_gt _ limit) H). reflexivity.
    + rewrite (proj2 (Z.leb_le _ limit) H). reflexivity.
  - vm_compute. reflexivity.
  - vm_compute. reflexivity.
Qed.

End FixedWindowClaims.

(** Witness of C7: a Redis counter already at the limit 1 is raised to 2
    by a rejected consume. *)
Lemma C7_fixed_window_amended_witness :
  FixedWindow.Redis.consume "api" 1 60
    {[ FixedWindow.Redis.windowKey "api" 60 "k" 30000 := 1 ]} "k" 30000
  = ({| FixedWindow.success := false; FixedWindow.remaining := 0 |},
     {[ FixedWindow.Redis.windowKey "api" 60 "k" 30000 := 2 ]}).
Proof.
  destruct C7_fixed_window_amended as (_ & H & _).
  rewrite H. vm_compute. reflexivity.
Defined.

(** ** Sliding window *)

Section SlidingWindowClaims.

(** C8, counterexample.  The claim: the weighted count is
    [current + floor(previous * weight)] with
    [weight = max(0, overlap / interval)], a real number.  The code computes
    the weight and the product in double precision: after 90 consumes at
    0 s (limit 100, interval 60 s), a getRemaining at 138 s rolls the 90
    requests over to [previous] with an overlap of 42 s; [42 / 60] is the
    double just below 0.7, and [90 * 0.7] evaluates to 62.99999999999999, so
    the code counts 62 and reports 38, where [floor(90 * 42 / 60) = 63]
    gives 37. *)
Lemma C8_sliding_window_float_floor :
  (let s := fold_left (fun s _ => (SlidingWindow.Mem.consume 100 60 s "k" 0).2)
              (seq 0 90) ∅ in
   (SlidingWindow.Mem.getRemaining 100 60 s "k" 138000).1 = 38)
  /\ Z.max 0 (100 - (0 + 90 * Z.max 0 ((120 + 60) - 138) / 60)) = 37.
Proof. split; vm_compute; reflexivity. Qed.

(** C8, as amended.  In the in-memory sliding window, after the rollover
    to the current window start [floor(now / interval) * interval], the
    weighted count is [current + floor(previous * max(0, overlap / interval))]
    with [overlap = currentWindowStart + interval - now], where the
    division, the [max] and the product are operations on double-precision
    numbers; consume succeeds iff the weighted count is below the limit,
    and then increments [current] and reports [max 0 (limit - (weighted + 1))];
    getRemaining of a stored key reports [max 0 (limit - weighted)] with the
    same weighted count.  With limit 10 and interval 60 s, five consumes at
    t = 50 s followed by getRemaining at t = 80 s report 7. *)
Theorem C8_sliding_window_amended :
  (forall limit interval (windows : gmap string SlidingWindow.Mem.WindowData) key ms,
     0 < interval ->
     let now := ms / 1000 in
     let cws := now / interval * interval in
     let w := SlidingWindow.Mem.rollover
                (default {| SlidingWindow.Mem.current := 0; SlidingWindow.Mem.previous := 0;
                            SlidingWindow.Mem.currentWindowStart := cws |} (windows !! key))
                cws in
     let overlap := SlidingWindow.Mem.currentWindowStart w + interval - now in
     let weighted := SlidingWindow.Mem.calculateWeightedRate interval w now in
     weighted = SlidingWindow.Mem.current w
                + Double.floor (Double.mul (Double.of_Z (SlidingWindow.Mem.previous w))
                     (Double.max0 (Double.div (Double.of_Z overlap) (Double.of_Z interval))))
     /\ SlidingWindow.Mem.currentWindowStart w = cws
     /\ SlidingWindow.Mem.consume limit interval windows key ms =
        (if weighted <? limit then
           ({| SlidingWindow.success := true;
               SlidingWindow.remaining := Z.max 0 (limit - (weighted + 1)) |},
            <[key := {| SlidingWindow.Mem.current := SlidingWindow.Mem.current w + 1;
                        SlidingWindow.Mem.previous := SlidingWindow.Mem.previous w;
                        SlidingWindow.Mem.currentWindowStart := cws |}]> windows)
         else
           ({| SlidingWindow.success := false;
               SlidingWindow.remaining := Z.max 0 (limit - weighted) |},
            <[key := w]> windows))
     /\ (is_Some (windows !! key) ->
         (SlidingWindow.Mem.getRemaining limit interval windows key ms).1
         = Z.max 0 (limit - weighted)))
  /\ (let s := fold_left (fun s _ => (SlidingWindow.Mem.consume 10 60 s "k" 50000).2)
                 (seq 0 5) ∅ in
      (SlidingWindow.Mem.getRemaining 10 60 s "k" 80000).1 = 7).
Proof.
  split.
  - intros limit interval windows key ms Hi. cbn zeta.
    assert (Hcws : SlidingWindow.Mem.currentWindowStart
                     (SlidingWindow.Mem.rollover
                        (default {| SlidingWindow.Mem.current := 0; SlidingWindow.Mem.previous := 0;
                                    SlidingWindow.Mem.currentWindowStart := ms / 1000 / interval * interval |}
                           (windows !! key)) (ms / 1000 / interval * interval))
                   = ms / 1000 / interval * interval).
    { unfold SlidingWindow.Mem.rollover.
      destruct (Z.eqb_spec (SlidingWindow.Mem.currentWindowStart
                  (default {| SlidingWindow.Mem.current := 0; SlidingWindow.Mem.previous := 0;
                              SlidingWindow.Mem.currentWindowStart := ms / 1000 / interval * interval |}
                     (windows !! key))) (ms / 1000 / interval * interval)); cbn; auto. }
    split; [reflexivity|]. split; [exact Hcws|]. split.
    + unfold SlidingWindow.Mem.consume. cbn zeta.
      destruct (windows !! key) as [w0|] eqn:E; cbn [default from_option id] in *.
      * destruct (Z.ltb_spec (SlidingWindow.Mem.calculateWeightedRate interval
                    (SlidingWindow.Mem.rollover w0 (ms / 1000 / interval * interval)) (ms / 1000))
                    limit) as [H|H].
        -- rewrite (proj2 (Z.leb_gt _ _) H). rewrite Hcws. reflexivity.
        -- rewrite (proj2 (Z.leb_le _ _) H). reflexivity.
      * destruct (Z.ltb_spec (SlidingWindow.Mem.calculateWeightedRate interval
                    (SlidingWindow.Mem.rollover
                       {| SlidingWindow.Mem.current := 0; SlidingWindow.Mem.previous := 0;
                          SlidingWindow.Mem.currentWindowStart := ms / 1000 / interval * interval |}
                       (ms / 1000 / interval * interval)) (ms / 1000))
                    limit) as [H|H].
        -- rewrite (proj2 (Z.leb_gt _ _) H). rewrite Hcws. reflexivity.
        -- rewrite (proj2 (Z.leb_le _ _) H). reflexivity.
    + intros [w0 E]. unfold SlidingWindow.Mem.getRemaining. rewrite E. reflexivity.
  - vm_compute. reflexivity.
Qed.

End SlidingWindowClaims.

(** Witness of C8: the first consume on a fresh key at t = 50 s, limit 10,
    interval 60 s, admitted with remaining 9, and the read at 138 s of the
    counterexample, whose weight is [42 / 60] in double precision. *)
Lemma C8_sliding_window_amended_witness :
  SlidingWindow.Mem.consume 10 60 ∅ "k" 50000
  = ({| SlidingWindow.success := true; SlidingWindow.remaining := 9 |},
     {[ "k" := {| SlidingWindow.Mem.current := 1; SlidingWindow.Mem.previous := 0;
                  SlidingWindow.Mem.currentWindowStart := 0 |} ]})
  /\ (SlidingWindow.Mem.getRemaining 100 60
        {[ "k" := {| SlidingWindow.Mem.current := 90; SlidingWindow.Mem.previous := 0;
                     SlidingWindow.Mem.currentWindowStart := 0 |} ]} "k" 138000).1
     = Z.max 0 (100 - (0 + Double.floor (Double.mul (Double.of_Z 90)
                 (Double.max0 (Double.div (Double.of_Z 42) (Double.of_Z 60)))))).
Proof.
  destruct C8_sliding_window_amended as [H _].
  split.
  - destruct (H 10 60 ∅ "k" 50000 ltac:(lia)) as (_ & _ & H2 & _).
    rewrite H2. vm_compute. reflexivity.
  - destruct (H 100 60 {[ "k" := {| SlidingWindow.Mem.current := 90; SlidingWindow.Mem.previous := 0;
                                    SlidingWindow.Mem.currentWindowStart := 0 |} ]}
                "k" 138000 ltac:(lia)) as (H1 & _ & _ & H4).
    rewrite (H4 ltac:(eexists; reflexivity)), H1. vm_compute. reflexivity.
Defined.

(** ** Throttling *)

Section ThrottlingFacts.

Lemma mem_throttle_eq minInterval (m : gmap string Z) key now :
  Throttling.Mem.throttle minInterval m key now =
    let last := default 0 (m !! key) in
    if minInterval <=? now - last then
      ({| Throttling.success := true; Throttling.waitTime := 0;
          Throttling.nextAllowedAt := now |}, <[key := now]> m)
    else
      ({| Throttling.success := false; Throttling.waitTime := minInterval - (now - last);
          Throttling.nextAllowedAt := last + minInterval |}, m).
Proof.
  unfold Throttling.Mem.throttle, Throttling.Mem.lastRequestTime. cbn zeta.
  destruct (Z.leb_spec minInterval (now - default 0 (m !! key))) as [H|H].
  - replace (Z.max 0 (minInterval - (now - default 0 (m !! key)))) with 0 by lia.
    reflexivity.
  - replace (Z.max 0 (minInterval - (now - default 0 (m !! key))))
      with (minInterval - (now - default 0 (m !! key))) by lia.
    destruct (Z.eqb_spec (minInterval - (now - default 0 (m !! key))) 0); [lia|].
    reflexivity.
Qed.

Lemma redis_throttle_eq name minInterval (store : gmap string Z) key now :
  Throttling.Redis.throttle name minInterval store key now =
    let k := getKey Throttling.Redis.PREFIX name key in
    let last := default 0 (store !! k) in
    if minInterval <=? now - last then
      ({| Throttling.success := true; Throttling.waitTime := 0;
          Throttling.nextAllowedAt := now |}, <[k := now]> store)
    else
      ({| Throttling.success := false; Throttling.waitTime := minInterval - (now - last);
          Throttling.nextAllowedAt := last + minInterval |}, store).
Proof.
  unfold Throttling.Redis.throttle, Throttling.Redis.throttleRequest. cbn zeta.
  destruct (Z.leb_spec minInterval
              (now - default 0 (store !! getKey Throttling.Redis.PREFIX name key))) as [H|H].
  - rewrite (proj2 (Z.ltb_ge _ _) H). reflexivity.
  - rewrite (proj2 (Z.ltb_lt _ _) H). cbn.
    destruct (store !! getKey Throttling.Redis.PREFIX name key) eqn:E;
      [rewrite (insert_id store _ _ E)|]; reflexivity.
Qed.

End ThrottlingFacts.

Section ThrottlingClaims.

(** C9.  In both backends, with [last] the stored time of the last allowed
    request (0 for an unseen key) and [elapsed = now - last]: if
    [elapsed >= minInterval] throttle succeeds with waitTime 0 and
    nextAllowedAt [now] and stores [now]; otherwise it fails with waitTime
    [minInterval - elapsed] and nextAllowedAt [last + minInterval] and
    writes nothing.  With minInterval 1000 ms and a clock reading
    [start >= 1000] (an epoch time), the first call on an unseen key
    succeeds, a call 500 ms later fails with waitTime 500 and
    nextAllowedAt [start + 1000], and a call 1000 ms after the success
    succeeds. *)
Theorem C9_throttle :
  (forall minInterval (m : gmap string Z) key now,
     let last := default 0 (m !! key) in
     let elapsed := now - last in
     Throttling.Mem.throttle minInterval m key now =
       if minInterval <=? elapsed then
         ({| Throttling.success := true; Throttling.waitTime := 0;
             Throttling.nextAllowedAt := now |}, <[key := now]> m)
       else
         ({| Throttling.success := false; Throttling.waitTime := minInterval - elapsed;
             Throttling.nextAllowedAt := last + minInterval |}, m))
  /\ (forall name minInterval (store : gmap string Z) key now,
     let k := getKey Throttling.Redis.PREFIX name key in
     let last := default 0 (store !! k) in
     let elapsed := now - last in
     Throttling.Redis.throttle name minInterval store key now =
       if minInterval <=? elapsed then
         ({| Throttling.success := true; Throttling.waitTime := 0;
             Throttling.nextAllowedAt := now |}, <[k := now]> store)
       else
         ({| Throttling.success := false; Throttling.waitTime := minInterval - elapsed;
             Throttling.nextAllowedAt := last + minInterval |}, store))
  /\ (forall start, 1000 <= start ->
     let '(r1, m1) := Throttling.Mem.throttle 1000 ∅ "k" start in
     let '(r2, m2) := Throttling.Mem.throttle 1000 m1 "k" (start + 500) in
     let '(r3, _) := Throttling.Mem.throttle 1000 m2 "k" (start + 1000) in
     r1 = {| Throttling.success := true; Throttling.waitTime := 0;
             Throttling.nextAllowedAt := start |}
     /\ r2 = {| Throttling.success := false; Throttling.waitTime := 500;
                Throttling.nextAllowedAt := start + 1000 |}
     /\ r3 = {| Throttling.success := true; Throttling.waitTime := 0;
                Throttling.nextAllowedAt := start + 1000 |})
  /\ (forall name start, 1000 <= start ->
     let '(r1, s1) := Throttling.Redis.throttle name 1000 ∅ "k" start in
     let '(r2, s2) := Throttling.Redis.throttle name 1000 s1 "k" (start + 500) in
     let '(r3, _) := Throttling.Redis.throttle name 1000 s2 "k" (start + 1000) in
     r1 = {| Throttling.success := true; Throttling.waitTime := 0;
             Throttling.nextAllowedAt := start |}
     /\ r2 = {| Throttling.success := false; Throttling.waitTime := 500;
                Throttling.nextAllowedAt := start + 1000 |}
     /\ r3 = {| Throttling.success := true; Throttling.waitTime := 0;
                Throttling.nextAllowedAt := start + 1000 |}).
Proof.
  split; [|split; [|split]].
  - intros. apply mem_throttle_eq.
  - intros. apply redis_throttle_eq.
  - intros start H.
    rewrite mem_throttle_eq. cbn zeta. rewrite lookup_empty. cbn [default from_option id].
    rewrite (proj2 (Z.leb_le 1000 (start - 0)) ltac:(lia)).
    rewrite mem_throttle_eq. cbn zeta. rewrite lookup_insert_eq. cbn [default from_option id].
    rewrite (proj2 (Z.leb_gt 1000 (start + 500 - start)) ltac:(lia)).
    rewrite mem_throttle_eq. cbn zeta. rewrite lookup_insert_eq. cbn [default from_option id].
    rewrite (proj2 (Z.leb_le 1000 (start + 1000 - start)) ltac:(lia)).
    split; [reflexivity|split; [|reflexivity]]. f_equal. lia.
  - intros name start H.
    rewrite redis_throttle_eq. cbn zeta. rewrite lookup_empty. cbn [default from_option id].
    rewrite (proj2 (Z.leb_le 1000 (start - 0)) ltac:(lia)).
    rewrite redis_throttle_eq. cbn zeta. rewrite lookup_insert_eq. cbn [default from_option id].
    rewrite (proj2 (Z.leb_gt 1000 (start + 500 - start)) ltac:(lia)).
    rewrite redis_throttle_eq. cbn zeta. rewrite lookup_insert_eq. cbn [default from_option id].
    rewrite (proj2 (Z.leb_le 1000 (start + 1000 - start)) ltac:(lia)).
    split; [reflexivity|split; [|reflexivity]]. f_equal. lia.
Qed.

End ThrottlingClaims.

(** Witness of C9: the in-memory scenario at the clock reading
    1700000000000 ms, and the first transition of the Redis one. *)
Lemma C9_throttle_witness :
  1000 <= 1700000000000
  /\ (let '(r1, m1) := Throttling.Mem.throttle 1000 ∅ "k" 1700000000000 in
      let '(r2, m2) := Throttling.Mem.throttle 1000 m1 "k" (1700000000000 + 500) in
      let '(r3, _) := Throttling.Mem.throttle 1000 m2 "k" (1700000000000 + 1000) in
      r1 = {| Throttling.success := true; Throttling.waitTime := 0;
              Throttling.nextAllowedAt := 1700000000000 |}
      /\ r2 = {| Throttling.success := false; Throttling.waitTime := 500;
                 Throttling.nextAllowedAt := 1700000000000 + 1000 |}
      /\ r3 = {| Throttling.success := true; Throttling.waitTime := 0;
                 Throttling.nextAllowedAt := 1700000000000 + 1000 |})
  /\ Throttling.Redis.throttle "api" 1000 ∅ "k" 1700000000000
     = ({| Throttling.success := true; Throttling.waitTime := 0;
           Throttling.nextAllowedAt := 1700000000000 |},
        {[ getKey Throttling.Redis.PREFIX "api" "k" := 1700000000000 ]}).
Proof.
  destruct C9_throttle as (_ & H2 & H3 & _).
  split; [lia|split].
  - exact (H3 1700000000000 ltac:(lia)).
  - rewrite (H2 "api" 1000 ∅ "k" 1700000000000). vm_compute. reflexivity.
Defined.

(** ** Unseen keys *)

Section UnseenKeyClaims.

(** C10.  A key never accessed starts with the full budget.  Token bucket:
    with a valid configuration, the first consume of [n] tokens,
    [0 <= n <= capacity], on an unseen key succeeds with [capacity - n]
    tokens left, in both backends (the bucket is created full).  Read
    paths on an unseen key (limit and capacity positive, as the
    constructors require): fixed window, sliding window and sliding log
    getRemaining report [limit], and leaky bucket getState reports size 0
    and remaining [capacity], in both backends. *)
Theorem C10_unseen_key_full_budget :
  (forall c (buckets : gmap string TokenBucket.Mem.BucketState) key n ms,
     TokenBucket.valid_config c -> buckets !! key = None -> 0 <= n <= TokenBucket.capacity c ->
     TokenBucket.Mem.consume c buckets key n ms =
       Ok ({| TokenBucket.success := true; TokenBucket.remainingTokens := TokenBucket.capacity c - n;
              TokenBucket.nextRefillAt := ms / 1000 + TokenBucket.refillInterval c |},
           <[key := {| TokenBucket.Mem.tokens := TokenBucket.capacity c - n;
                       TokenBucket.Mem.lastRefill := ms / 1000 |}]> buckets))
  /\ (forall c (store : gmap string TokenBucket.Redis.BucketHash) key n ms,
     TokenBucket.valid_config c -> store !! TokenBucket.Redis.redisKey key = None ->
     0 <= n <= TokenBucket.capacity c ->
     TokenBucket.success (TokenBucket.Redis.consume c store key n ms).1 = true
     /\ TokenBucket.remainingTokens (TokenBucket.Redis.consume c store key n ms).1 = TokenBucket.capacity c - n)
  /\ (forall limit interval (storage : gmap string FixedWindow.Mem.WindowData) key ms,
     storage !! key = None ->
     FixedWindow.Mem.getRemaining limit interval storage key ms = limit)
  /\ (forall name limit interval (store : FixedWindow.Redis.Store) key ms,
     0 < limit -> store !! FixedWindow.Redis.windowKey name interval key ms = None ->
     FixedWindow.Redis.getRemaining name limit interval store key ms = limit)
  /\ (forall limit interval (windows : gmap string SlidingWindow.Mem.WindowData) key ms,
     windows !! key = None ->
     SlidingWindow.Mem.getRemaining limit interval windows key ms = (limit, windows))
  /\ (forall limit interval (store : SlidingWindow.Redis.Store) key ms,
     0 < limit ->
     let w := SlidingWindow.Redis.currentWindow interval ms in
     store !! (key, w - 1) = None -> store !! (key, w) = None ->
     SlidingWindow.Redis.getRemaining limit interval store key ms = limit)
  /\ (forall limit interval (storage : gmap string (list Z)) key ms,
     storage !! key = None ->
     SlidingLog.Mem.getRemaining limit interval storage key ms = limit)
  /\ (forall limit interval (store : gmap string SlidingLog.Redis.ZSet) key ms,
     0 < limit -> store !! (SlidingLog.Redis.PREFIX +:+ ":" +:+ key) = None ->
     (SlidingLog.Redis.getRemaining limit interval store key ms).1 = limit)
  /\ (forall capacity (queues : gmap string LeakyBucket.Mem.QueueState) key ms,
     0 < capacity -> queues !! key = None ->
     (LeakyBucket.Mem.getState capacity queues key ms).1
     = {| LeakyBucket.size := 0; LeakyBucket.stateRemaining := capacity |})
  /\ (forall capacity (store : gmap string LeakyBucket.Redis.RList) key ms,
     0 < capacity -> store !! (LeakyBucket.Redis.PREFIX +:+ ":" +:+ key) = None ->
     LeakyBucket.Redis.getState capacity store key ms
     = {| LeakyBucket.size := 0; LeakyBucket.stateRemaining := capacity |}).
Proof.
  split; [|split; [|split; [|split; [|split; [|split; [|split; [|split; [|split]]]]]]]].
  - intros c buckets key n ms (Hc & Ha & Hi) E Hn.
    unfold TokenBucket.Mem.consume.
    rewrite (proj2 (Z.ltb_ge n 0) ltac:(lia)). cbn zeta.
    unfold TokenBucket.Mem.getOrCreateBucket. rewrite E.
    unfold TokenBucket.Mem.refillBucket. cbn.
    rewrite Z.sub_diag, Z.div_0_l by lia. cbn.
    rewrite (proj2 (Z.ltb_ge (TokenBucket.capacity c) n) ltac:(lia)).
    rewrite insert_insert_eq. reflexivity.
  - intros c store key n ms (Hc & Ha & Hi) E Hn.
    unfold TokenBucket.Redis.consume, TokenBucket.Redis.consumeToken,
      TokenBucket.Redis.refill. rewrite E. cbn zeta.
    rewrite Z.sub_diag.
    rewrite (proj2 (Z.leb_gt (TokenBucket.Redis.refill_interval_ms c) 0)
               ltac:(unfold TokenBucket.Redis.refill_interval_ms; lia)).
    rewrite (proj2 (Z.leb_le n (TokenBucket.capacity c)) ltac:(lia)). cbn. auto.
  - intros limit interval storage key ms E.
    unfold FixedWindow.Mem.getRemaining. rewrite E. reflexivity.
  - intros name limit interval store key ms Hl E.
    unfold FixedWindow.Redis.getRemaining, FixedWindow.Redis.getFixedWindow.
    rewrite E. cbn. rewrite Z.sub_0_r.
    rewrite (proj2 (Z.ltb_ge limit 0) ltac:(lia)). reflexivity.
  - intros limit interval windows key ms E.
    unfold SlidingWindow.Mem.getRemaining. rewrite E. reflexivity.
  - intros limit interval store key ms Hl. cbn zeta. intros E1 E2.
    unfold SlidingWindow.Redis.getRemaining, SlidingWindow.Redis.script.
    rewrite E1, E2. cbn [default from_option id].
    rewrite floor_mul_zero_l, Z.add_0_r, Z.sub_0_r.
    rewrite (proj2 (Z.ltb_ge limit 0) ltac:(lia)). reflexivity.
  - intros limit interval storage key ms E.
    unfold SlidingLog.Mem.getRemaining. rewrite E. reflexivity.
  - intros limit interval store key ms Hl E.
    unfold SlidingLog.Redis.getRemaining, SlidingLog.Redis.getSlidingLog.
    cbn zeta. unfold SlidingLog.Redis.ZSet in *. rewrite E. cbn. rewrite Z.sub_0_r.
    rewrite (proj2 (Z.ltb_ge limit 0) ltac:(lia)). reflexivity.
  - intros capacity queues key ms Hc E.
    unfold LeakyBucket.Mem.getState, LeakyBucket.Mem.getOrCreateQueue.
    rewrite E. cbn. f_equal. lia.
  - intros capacity store key ms Hc E.
    unfold LeakyBucket.Redis.getState, LeakyBucket.Redis.live.
    cbn zeta. rewrite E. cbn. rewrite Z.sub_0_r.
    rewrite (proj2 (Z.ltb_ge capacity 0) ltac:(lia)). reflexivity.
Qed.

End UnseenKeyClaims.

(** Witness of C10: a fresh in-memory token bucket of capacity 10 serves a
    first request for all 10 tokens, and a fresh Redis leaky bucket of
    capacity 5 reports size 0 and remaining 5. *)
Lemma C10_unseen_key_full_budget_witness :
  TokenBucket.Mem.consume
    {| TokenBucket.capacity := 10; TokenBucket.refillAmount := 2;
       TokenBucket.refillInterval := 1 |} ∅ "k" 10 5000
  = Ok ({| TokenBucket.success := true; TokenBucket.remainingTokens := 0;
           TokenBucket.nextRefillAt := 6 |},
        {[ "k" := {| TokenBucket.Mem.tokens := 0; TokenBucket.Mem.lastRefill := 5 |} ]})
  /\ LeakyBucket.Redis.getState 5 ∅ "k" 0
     = {| LeakyBucket.size := 0; LeakyBucket.stateRemaining := 5 |}.
Proof.
  destruct C10_unseen_key_full_budget as (H1 & _ & _ & _ & _ & _ & _ & _ & _ & H10).
  split.
  - rewrite (H1 {| TokenBucket.capacity := 10; TokenBucket.refillAmount := 2;
                   TokenBucket.refillInterval := 1 |} ∅ "k" 10 5000 ltac:(unfold TokenBucket.valid_config; cbn; lia)
               (lookup_empty _) ltac:(cbn; lia)).
    reflexivity.
  - exact (H10 5 ∅ "k" 0 ltac:(lia) (lookup_empty _)).
Defined.

(* ===================================================================== *)
(** * Further properties of the limiters *)
(* ===================================================================== *)

Section MapFacts.

(** A lookup in a filtered map, by cases on the stored value. *)
Lemma lookup_filter_cases {V} (P : string * V -> Prop) `{!forall x, Decision (P x)}
    (m : gmap string V) (i : string) :
  filter P m !! i = match m !! i with
                    | Some x => if decide (P (i, x)) then Some x else None
                    | None => None
                    end.
Proof.
  rewrite map_lookup_filter. destruct (m !! i) as [x|]; cbn; [|reflexivity].
  destruct (decide (P (i, x))).
  - rewrite option_guard_True by assumption. reflexivity.
  - rewrite option_guard_False by assumption. reflexivity.
Qed.

End MapFacts.

(** ** Token bucket: refill and bounds *)

Section TokenBucketMore.
Import TokenBucket.



(** The Redis refill keeps a token count in [0, capacity]. *)
Lemma redis_refill_bounds (c : Config) (b : option Redis.BucketHash) (t : Z) :
  valid_config c ->
  (forall h, b = Some h -> 0 <= Redis.h_tokens h <= capacity c) ->
  0 <= (Redis.refill c b t).1 <= capacity c.
Proof.
  intros (Hc & Ha & Hi) Hb.
  assert (Hms : 0 < Redis.refill_interval_ms c) by (unfold Redis.refill_interval_ms; lia).
  unfold Redis.refill.
  destruct b as [h|]; cbn.
  - specialize (Hb h eq_refl).
    destruct (Z.leb_spec (Redis.refill_interval_ms c) (t - Redis.h_last_updated h)) as [Hle|Hlt];
      cbn; [|lia].
    assert (1 <= (t - Redis.h_last_updated h) / Redis.refill_interval_ms c)
      by (apply Z.div_le_lower_bound; lia).
    nia.
  - destruct (Z.leb_spec (Redis.refill_interval_ms c) (t - t)); cbn; lia.
Qed.

End TokenBucketMore.

Section TokenBucketExtras.
Import TokenBucket.




(** X4.  Token counts stay in [0, capacity]: if every stored bucket holds
    a count in that range, the in-memory consume and getRemainingTokens,
    and the Redis consume of a non-negative amount and getRemainingTokens,
    keep every stored count in the range and report a count in it. *)
Theorem X4_token_count_bounds (c : Config) :
  valid_config c ->
  (forall buckets key n ms r buckets',
     (forall k b, buckets !! k = Some b -> 0 <= Mem.tokens b <= capacity c) ->
     Mem.consume c buckets key n ms = Ok (r, buckets') ->
     (forall k b, buckets' !! k = Some b -> 0 <= Mem.tokens b <= capacity c)
     /\ 0 <= remainingTokens r <= capacity c)
  /\ (forall buckets key ms,
     (forall k b, buckets !! k = Some b -> 0 <= Mem.tokens b <= capacity c) ->
     (forall k b, (Mem.getRemainingTokens c buckets key ms).2 !! k = Some b ->
                  0 <= Mem.tokens b <= capacity c)
     /\ 0 <= countRemainingTokens (Mem.getRemainingTokens c buckets key ms).1 <= capacity c)
  /\ (forall store key n ms, 0 <= n ->
     (forall k h, store !! k = Some h -> 0 <= Redis.h_tokens h <= capacity c) ->
     (forall k h, (Redis.consume c store key n ms).2 !! k = Some h ->
                  0 <= Redis.h_tokens h <= capacity c)
     /\ 0 <= remainingTokens (Redis.consume c store key n ms).1 <= capacity c)
  /\ (forall store key ms,
     (forall k h, store !! k = Some h -> 0 <= Redis.h_tokens h <= capacity c) ->
     (forall k h, (Redis.getRemainingTokens c store key ms).2 !! k = Some h ->
                  0 <= Redis.h_tokens h <= capacity c)
     /\ 0 <= countRemainingTokens (Redis.getRemainingTokens c store key ms).1 <= capacity c).
Proof.
  intros Hv. pose proof Hv as (Hc & Ha & Hi).
  assert (Hins : forall {V} (P : V -> Prop) (m : gmap string V) k v,
            (forall k' v', m !! k' = Some v' -> P v') -> P v ->
            forall k' v', <[k := v]> m !! k' = Some v' -> P v').
  { intros V P m k v Hm Hp k' v' E.
    destruct (decide (k = k')) as [<-|Hne].
    - rewrite lookup_insert_eq in E. injection E as <-. exact Hp.
    - rewrite lookup_insert_ne in E by exact Hne. exact (Hm _ _ E). }
  assert (Hdel : forall {V} (P : V -> Prop) (m : gmap string V) k,
            (forall k' v', m !! k' = Some v' -> P v') ->
            forall k' v', delete k m !! k' = Some v' -> P v').
  { intros V P m k Hm k' v' E. apply lookup_delete_Some in E as [_ E]. exact (Hm _ _ E). }
  assert (Hgoc : forall buckets key now,
            (forall k b, buckets !! k = Some b -> 0 <= Mem.tokens b <= capacity c) ->
            forall k b, (Mem.getOrCreateBucket c buckets key now).2 !! k = Some b ->
                        0 <= Mem.tokens b <= capacity c).
  { intros buckets key now Hb. unfold Mem.getOrCreateBucket.
    destruct (buckets !! key); cbn; [exact Hb|].
    apply (Hins _ (fun b => 0 <= Mem.tokens b <= capacity c)); [exact Hb|cbn; lia]. }
  split; [|split; [|split]].
  - intros buckets key n ms r buckets' Hb H.
    pose proof (mem_getOrCreate_bounds c buckets key (ms / 1000) Hc (Hb key)) as Hb0.
    pose proof (Hgoc buckets key (ms / 1000) Hb) as Hb1.
    unfold Mem.consume in H.
    destruct (Z.ltb_spec n 0); [discriminate|].
    destruct (Mem.getOrCreateBucket c buckets key (ms / 1000)) as [b0 bk1] eqn:E.
    cbn in Hb0, Hb1. cbn zeta in H.
    pose proof (mem_refill_bounds c b0 (ms / 1000) Hv Hb0) as Hr.
    destruct (Z.ltb_spec (Mem.tokens (Mem.refillBucket c b0 (ms / 1000))) n);
      injection H as <- <-; cbn; split; try lia.
    + apply (Hins _ (fun b => 0 <= Mem.tokens b <= capacity c)); assumption.
    + apply (Hins _ (fun b => 0 <= Mem.tokens b <= capacity c)); [assumption|cbn; lia].
  - intros buckets key ms Hb.
    pose proof (mem_getOrCreate_bounds c buckets key (ms / 1000) Hc (Hb key)) as Hb0.
    pose proof (Hgoc buckets key (ms / 1000) Hb) as Hb1.
    unfold Mem.getRemainingTokens. cbn zeta.
    destruct (Mem.getOrCreateBucket c buckets key (ms / 1000)) as [b0 bk1] eqn:E.
    cbn in Hb0, Hb1 |- *.
    pose proof (mem_refill_bounds c b0 (ms / 1000) Hv Hb0) as Hr.
    split; [|exact Hr].
    apply (Hins _ (fun b => 0 <= Mem.tokens b <= capacity c)); assumption.
  - intros store key n ms Hn Hs.
    pose proof (redis_refill_bounds c (store !! Redis.redisKey key) ms Hv
                  (fun h E => Hs _ h E)) as Hr.
    unfold Redis.consume, Redis.consumeToken.
    destruct (Redis.refill c (store !! Redis.redisKey key) ms) as [cur last1] eqn:R.
    cbn in Hr.
    destruct (Z.leb_spec n cur); cbn; split; try lia.
    + apply (Hins _ (fun h => 0 <= Redis.h_tokens h <= capacity c)); [exact Hs|cbn; lia].
    + destruct (store !! Redis.redisKey key) eqn:E.
      * apply (Hins _ (fun h => 0 <= Redis.h_tokens h <= capacity c)); [exact Hs|exact (Hs _ _ E)].
      * apply (Hdel _ (fun h => 0 <= Redis.h_tokens h <= capacity c)). exact Hs.
  - intros store key ms Hs.
    pose proof (redis_refill_bounds c (store !! Redis.redisKey key) ms Hv
                  (fun h E => Hs _ h E)) as Hr.
    unfold Redis.getRemainingTokens, Redis.getRemainingTokensScript.
    destruct (Redis.refill c (store !! Redis.redisKey key) ms) as [cur last1] eqn:R.
    cbn in Hr |- *. split; [|exact Hr].
    destruct (Redis.refill_interval_ms c <=?
              ms - match store !! Redis.redisKey key with
                   | Some h => Redis.h_last_updated h | None => ms end).
    + apply (Hins _ (fun h => 0 <= Redis.h_tokens h <= capacity c)); [exact Hs|cbn; lia].
    + destruct (store !! Redis.redisKey key) eqn:E.
      * apply (Hins _ (fun h => 0 <= Redis.h_tokens h <= capacity c)); [exact Hs|exact (Hs _ _ E)].
      * apply (Hdel _ (fun h => 0 <= Redis.h_tokens h <= capacity c)). exact Hs.
Qed.

(** X5.  The in-memory [cleanup] never takes tokens away: for a stored
    bucket with at most [capacity] tokens, getRemainingTokens after a
    cleanup at the same instant reports at least as many tokens as
    without it, and exactly the same reply when the bucket holds at least
    [capacity - 10 * refillAmount] tokens (a dropped bucket comes back
    full, while ten missed refills would not always have refilled it). *)
Theorem X5_token_cleanup_never_takes_tokens (c : Config) :
  valid_config c ->
  forall buckets key ms b,
  buckets !! key = Some b -> Mem.tokens b <= capacity c ->
  let r := (Mem.getRemainingTokens c buckets key ms).1 in
  let r' := (Mem.getRemainingTokens c (Mem.cleanup c buckets ms) key ms).1 in
  countRemainingTokens r <= countRemainingTokens r'
  /\ (capacity c <= Mem.tokens b + 10 * refillAmount c -> r' = r).
Proof.
  intros (Hc & Ha & Hi) buckets key ms b E Hb. cbn zeta.
  unfold Mem.getRemainingTokens, Mem.cleanup, Mem.getOrCreateBucket. cbn zeta.
  rewrite lookup_filter_cases, E. cbn [fst snd].
  destruct (decide _) as [Hk|Hd]; cbn [fst snd].
  - split; [lia|reflexivity].
  - assert (Hd' : refillInterval c * 10 < ms / 1000 - Mem.lastRefill b) by lia.
    clear Hd.
    assert (H10 : 10 <= (ms / 1000 - Mem.lastRefill b) / refillInterval c)
      by (apply Z.div_le_lower_bound; lia).
    unfold Mem.refillBucket. cbn.
    destruct (Z.ltb_spec 0 ((ms / 1000 - Mem.lastRefill b) / refillInterval c)); [|lia].
    rewrite Z.sub_diag, Z.div_0_l by lia. cbn.
    split.
    + lia.
    + intros Hfull. f_equal. nia.
Qed.




Lemma X4_token_count_bounds_witness :
  let c := {| capacity := 10; refillAmount := 2; refillInterval := 5 |} in
  let buckets := {[ "k" := {| Mem.tokens := 1; Mem.lastRefill := 0 |} ]} in
  let store := {[ Redis.redisKey "k" := {| Redis.h_tokens := 1; Redis.h_last_updated := 0 |} ]} in
  valid_config c
  /\ (forall k b, buckets !! k = Some b -> 0 <= Mem.tokens b <= capacity c)
  /\ (forall k h, store !! k = Some h -> 0 <= Redis.h_tokens h <= capacity c)
  /\ (exists r b', Mem.consume c buckets "k" 2 13000 = Ok (r, b')
      /\ (forall k b, b' !! k = Some b -> 0 <= Mem.tokens b <= capacity c)
      /\ 0 <= remainingTokens r <= capacity c)
  /\ (0 <= countRemainingTokens (Mem.getRemainingTokens c buckets "k" 13000).1 <= capacity c)
  /\ (0 <= remainingTokens (Redis.consume c store "k" 2 13000).1 <= capacity c)
  /\ (0 <= countRemainingTokens (Redis.getRemainingTokens c store "k" 13000).1 <= capacity c).
Proof.
  intros c buckets store. assert (Hv : valid_config c) by (unfold valid_config; cbn; lia).
  assert (Hb : forall k b, buckets !! k = Some b -> 0 <= Mem.tokens b <= capacity c).
  { intros k b E. apply lookup_singleton_Some in E as [_ <-]. cbn. lia. }
  assert (Hs : forall k h, store !! k = Some h -> 0 <= Redis.h_tokens h <= capacity c).
  { intros k h E. apply lookup_singleton_Some in E as [_ <-]. cbn. lia. }
  destruct (X4_token_count_bounds c Hv) as (H1 & H2 & H3 & H4).
  split; [exact Hv|]. split; [exact Hb|]. split; [exact Hs|]. split; [|split; [|split]].
  - eexists _, _. split; [reflexivity|].
    apply (H1 buckets "k" 2 13000); [exact Hb|reflexivity].
  - exact (proj2 (H2 buckets "k" 13000 Hb)).
  - exact (proj2 (H3 store "k" 2 13000 ltac:(lia) Hs)).
  - exact (proj2 (H4 store "k" 13000 Hs)).
Defined.

Lemma X5_token_cleanup_never_takes_tokens_witness :
  let c := {| capacity := 10; refillAmount := 2; refillInterval := 5 |} in
  let b := {| Mem.tokens := 1; Mem.lastRefill := 0 |} in
  let buckets := {[ "k" := b ]} in
  valid_config c /\ buckets !! "k" = Some b /\ Mem.tokens b <= capacity c
  /\ (let r := (Mem.getRemainingTokens c buckets "k" 60000).1 in
      let r' := (Mem.getRemainingTokens c (Mem.cleanup c buckets 60000) "k" 60000).1 in
      countRemainingTokens r <= countRemainingTokens r'
      /\ (capacity c <= Mem.tokens b + 10 * refillAmount c -> r' = r)).
Proof.
  intros c b buckets. assert (Hv : valid_config c) by (unfold valid_config; cbn; lia).
  split; [exact Hv|]. split; [reflexivity|]. split; [cbn; lia|].
  apply (X5_token_cleanup_never_takes_tokens c Hv buckets "k" 60000 b); [reflexivity|cbn; lia].
Defined.

End TokenBucketExtras.

(** ** Fixed window *)

Section FixedWindowMore.
Import FixedWindow.

(** One in-memory consume, read off through the count of the key's
    window (0 when the stored window is absent or from another window). *)
Lemma mem_fixed_step (limit interval : Z) (storage : gmap string Mem.WindowData)
    (key : string) (ms : Z) :
  let W := Mem.getWindowStart interval (ms / 1000) in
  let c0 := match storage !! key with
            | Some w => if Mem.windowStart w =? W then Mem.count w else 0
            | None => 0 end in
  (Mem.consume limit interval storage key ms).1
    = {| success := c0 <? limit; remaining := Z.max 0 (limit - (c0 + 1)) |}
  /\ match (Mem.consume limit interval storage key ms).2 !! key with
     | Some w => if Mem.windowStart w =? W then Mem.count w else 0
     | None => 0 end = (if c0 <? limit then c0 + 1 else c0).
Proof.
  cbn zeta. set (W := Mem.getWindowStart interval (ms / 1000)).
  unfold Mem.consume. cbn zeta. fold W.
  destruct (storage !! key) as [w|] eqn:E.
  - destruct (Z.eqb_spec (Mem.windowStart w) W) as [Hw|Hw]; cbn.
    + destruct (Z.leb_spec limit (Mem.count w)); destruct (Z.ltb_spec (Mem.count w) limit);
        try lia; cbn.
      * split; [f_equal; lia|]. rewrite E, Hw, Z.eqb_refl. reflexivity.
      * rewrite lookup_insert_eq. cbn. rewrite Hw, Z.eqb_refl.
        split; [f_equal; lia|reflexivity].
    + destruct (Z.leb_spec limit 0); destruct (Z.ltb_spec 0 limit); try lia; cbn.
      * split; [f_equal; lia|]. rewrite E. destruct (Z.eqb_spec (Mem.windowStart w) W); [lia|].
        reflexivity.
      * rewrite lookup_insert_eq. cbn. rewrite Z.eqb_refl. split; [f_equal; lia|reflexivity].
  - cbn. destruct (Z.leb_spec limit 0); destruct (Z.ltb_spec 0 limit); try lia; cbn.
    + split; [f_equal; lia|]. rewrite E. reflexivity.
    + rewrite lookup_insert_eq. cbn. rewrite Z.eqb_refl. split; [f_equal; lia|reflexivity].
Qed.

(** The in-memory replies depend on the map only through the key's
    window, as seen at the instant of the call. *)
Lemma mem_fixed_view (limit interval : Z) (s1 s2 : gmap string Mem.WindowData)
    (key : string) (ms : Z) :
  let W := Mem.getWindowStart interval (ms / 1000) in
  (match s1 !! key with
   | Some w => if Mem.windowStart w =? W then Some w else None | None => None end)
  = (match s2 !! key with
     | Some w => if Mem.windowStart w =? W then Some w else None | None => None end) ->
  (Mem.consume limit interval s1 key ms).1 = (Mem.consume limit interval s2 key ms).1
  /\ Mem.getRemaining limit interval s1 key ms = Mem.getRemaining limit interval s2 key ms.
Proof.
  cbn zeta. intros H. unfold Mem.consume, Mem.getRemaining. cbn zeta.
  destruct (s1 !! key) as [w1|]; destruct (s2 !! key) as [w2|].
  - destruct (Z.eqb (Mem.windowStart w1) _); destruct (Z.eqb (Mem.windowStart w2) _);
      try discriminate; [injection H as <-|]; split; try reflexivity;
      destruct (limit <=? _); reflexivity.
  - destruct (Z.eqb (Mem.windowStart w1) _); [discriminate|].
    split; [destruct (limit <=? _); reflexivity|reflexivity].
  - destruct (Z.eqb (Mem.windowStart w2) _); [discriminate|].
    split; [destruct (limit <=? _); reflexivity|reflexivity].
  - split; [destruct (limit <=? _); reflexivity|reflexivity].
Qed.

(** The in-memory window start never moves backwards. *)
Lemma mem_windowStart_mono (interval ms ms' : Z) :
  0 < interval -> ms <= ms' ->
  Mem.getWindowStart interval (ms / 1000) <= Mem.getWindowStart interval (ms' / 1000).
Proof.
  intros Hi H. unfold Mem.getWindowStart.
  apply Z.mul_le_mono_nonneg_r; [lia|].
  apply Z.div_le_mono; [lia|]. apply Z.div_le_mono; lia.
Qed.

End FixedWindowMore.

Section FixedWindowExtras.
Import FixedWindow.

(** X6.  What a fixed-window consume reports as [remaining] is what a
    getRemaining right after it (same instant) returns, on success and on
    rejection: in memory for a non-negative limit, in Redis always. *)
Theorem X6_fixed_consume_then_read :
  (forall limit interval (storage : gmap string Mem.WindowData) key ms,
     0 <= limit ->
     Mem.getRemaining limit interval (Mem.consume limit interval storage key ms).2 key ms
     = remaining (Mem.consume limit interval storage key ms).1)
  /\ (forall name limit interval (store : Redis.Store) key ms,
     Redis.getRemaining name limit interval (Redis.consume name limit interval store key ms).2 key ms
     = remaining (Redis.consume name limit interval store key ms).1).
Proof.
  split.
  - intros limit interval storage key ms Hl.
    unfold Mem.getRemaining, Mem.consume. cbn zeta.
    destruct (storage !! key) as [w|] eqn:E.
    + destruct (Z.eqb_spec (Mem.windowStart w) (Mem.getWindowStart interval (ms / 1000)))
        as [Hw|Hw]; cbn.
      * destruct (Z.leb_spec limit (Mem.count w)); cbn.
        -- rewrite E, Hw, Z.eqb_refl. lia.
        -- rewrite lookup_insert_eq. cbn. rewrite Hw, Z.eqb_refl. lia.
      * destruct (Z.leb_spec limit 0); cbn.
        -- rewrite E. destruct (Z.eqb_spec (Mem.windowStart w)
                                   (Mem.getWindowStart interval (ms / 1000))); [lia|]. lia.
        -- rewrite lookup_insert_eq. cbn. rewrite Z.eqb_refl. lia.
    + cbn. destruct (Z.leb_spec limit 0); cbn.
      * rewrite E. lia.
      * rewrite lookup_insert_eq. cbn. rewrite Z.eqb_refl. lia.
  - intros name limit interval store key ms.
    unfold Redis.getRemaining, Redis.consume, Redis.consumeFixedWindow. cbn zeta.
    set (count := default 0 (store !! Redis.windowKey name interval key ms) + 1).
    unfold Redis.getFixedWindow.
    unfold Redis.Store in *.
    destruct (limit <? count); cbn; rewrite lookup_insert_eq; reflexivity.
Qed.

(** X7.  The in-memory [cleanupAllExpired] cannot be observed: after a
    cleanup at [ms], consume and getRemaining at any later instant reply
    as they would have without it (positive interval). *)
Theorem X7_mem_fixed_cleanup_unobservable :
  forall limit interval (storage : gmap string Mem.WindowData) key ms ms',
  0 < interval -> ms <= ms' ->
  let storage' := Mem.cleanupAllExpired interval storage ms in
  (Mem.consume limit interval storage' key ms').1 = (Mem.consume limit interval storage key ms').1
  /\ Mem.getRemaining limit interval storage' key ms' = Mem.getRemaining limit interval storage key ms'.
Proof.
  intros limit interval storage key ms ms' Hi H. cbn zeta.
  apply mem_fixed_view. unfold Mem.cleanupAllExpired. cbn zeta.
  rewrite lookup_filter_cases.
  destruct (storage !! key) as [w|]; [|reflexivity].
  destruct (decide _) as [Hk|Hd]; [reflexivity|].
  pose proof (mem_windowStart_mono interval ms ms' Hi H).
  cbn in Hd.
  destruct (Z.eqb_spec (Mem.windowStart w) (Mem.getWindowStart interval (ms' / 1000)));
    [lia|reflexivity].
Qed.

(** X8.  A run of consumes of one key inside one window: when every
    timestamp of [ts] falls in the same window, and the key's counter for
    that window stands at [c0] before the run (0 if nothing is stored for
    that window), the [i]-th call succeeds exactly when [c0 + i < limit]
    and reports [max 0 (limit - (c0 + i + 1))] as remaining, in both
    backends: at most [limit - c0] calls of the window succeed, and they
    are the first ones. *)
Theorem X8_fixed_window_run :
  (forall limit interval (storage : gmap string Mem.WindowData) key ts W,
     Forall (fun ms => Mem.getWindowStart interval (ms / 1000) = W) ts ->
     let c0 := match storage !! key with
               | Some w => if Mem.windowStart w =? W then Mem.count w else 0
               | None => 0 end in
     let rs := (Mem.consumeSeq limit interval storage key ts).1 in
     length rs = length ts
     /\ forall i r, rs !! i = Some r ->
        r = {| success := c0 + Z.of_nat i <? limit;
               remaining := Z.max 0 (limit - (c0 + Z.of_nat i + 1)) |})
  /\ (forall name limit interval (store : Redis.Store) key ts k,
     Forall (fun ms => Redis.windowKey name interval key ms = k) ts ->
     let c0 := default 0 (store !! k) in
     let rs := (Redis.consumeSeq name limit interval store key ts).1 in
     length rs = length ts
     /\ forall i r, rs !! i = Some r ->
        r = {| success := c0 + Z.of_nat i <? limit;
               remaining := Z.max 0 (limit - (c0 + Z.of_nat i + 1)) |}).
Proof.
  split.
  - intros limit interval storage key ts W Hts. cbn zeta.
    revert storage. induction Hts as [|ms ts Hms Hts IH]; intros storage.
    + split; [reflexivity|]. intros i r Hr. discriminate.
    + pose proof (mem_fixed_step limit interval storage key ms) as [Hr Hc].
      cbn zeta in Hr, Hc. rewrite Hms in Hr, Hc.
      cbn [Mem.consumeSeq].
      destruct (Mem.consume limit interval storage key ms) as [r1 s1] eqn:E1.
      cbn [fst snd] in Hr, Hc.
      destruct (IH s1) as [IHl IHr].
      destruct (Mem.consumeSeq limit interval s1 key ts) as [rs s2] eqn:E2.
      cbn [fst snd] in IHl, IHr |- *.
      split; [cbn; lia|].
      intros [|i] r Hi; cbn in Hi.
      * injection Hi as <-. rewrite Hr. f_equal; f_equal; lia.
      * rewrite (IHr i r Hi), Hc.
        set (c0 := match storage !! key with
                   | Some w => if Mem.windowStart w =? W then Mem.count w else 0
                   | None => 0 end).
        destruct (Z.ltb_spec c0 limit).
        -- f_equal; f_equal; lia.
        -- destruct (Z.ltb_spec (c0 + Z.of_nat i) limit);
             destruct (Z.ltb_spec (c0 + Z.of_nat (S i)) limit); try lia. f_equal. lia.
  - intros name limit interval store key ts k Hts. cbn zeta.
    unfold Redis.Store in *.
    revert store. induction Hts as [|ms ts Hms Hts IH]; intros store.
    + split; [reflexivity|]. intros i r Hr. discriminate.
    + cbn [Redis.consumeSeq].
      set (c0 := default 0 (store !! k)).
      assert (Hstep : Redis.consume name limit interval store key ms
                      = ({| success := c0 <? limit; remaining := Z.max 0 (limit - (c0 + 1)) |},
                         <[k := c0 + 1]> store)).
      { unfold Redis.consume, Redis.consumeFixedWindow. cbn zeta. rewrite Hms.
        change (default 0 (store !! k)) with c0.
        destruct (Z.ltb_spec limit (c0 + 1)); destruct (Z.ltb_spec c0 limit); try lia;
          destruct (Z.ltb_spec (limit - (c0 + 1)) 0); cbn; f_equal; f_equal; lia. }
      rewrite Hstep.
      destruct (IH (<[k := c0 + 1]> store)) as [IHl IHr].
      rewrite lookup_insert_eq in IHr. cbn [default from_option id] in IHr.
      destruct (Redis.consumeSeq name limit interval (<[k := c0 + 1]> store) key ts)
        as [rs s2] eqn:E2.
      cbn [fst snd] in IHl, IHr |- *.
      split; [cbn; lia|].
      intros [|i] r Hi; cbn in Hi.
      * injection Hi as <-. f_equal; f_equal; lia.
      * rewrite (IHr i r Hi). f_equal; f_equal; lia.
Qed.

Lemma X6_fixed_consume_then_read_witness :
  0 <= 2
  /\ Mem.getRemaining 2 60 (Mem.consume 2 60 ∅ "k" 1000).2 "k" 1000
     = remaining (Mem.consume 2 60 ∅ "k" 1000).1.
Proof.
  split; [lia|]. exact (proj1 X6_fixed_consume_then_read 2 60 ∅ "k" 1000 ltac:(lia)).
Defined.

Lemma X7_mem_fixed_cleanup_unobservable_witness :
  let storage := {[ "k" := {| Mem.count := 2; Mem.windowStart := 0 |} ]} in
  0 < 60 /\ 70000 <= 80000
  /\ (Mem.consume 2 60 (Mem.cleanupAllExpired 60 storage 70000) "k" 80000).1
     = (Mem.consume 2 60 storage "k" 80000).1
  /\ Mem.getRemaining 2 60 (Mem.cleanupAllExpired 60 storage 70000) "k" 80000
     = Mem.getRemaining 2 60 storage "k" 80000.
Proof.
  intros storage. split; [lia|]. split; [lia|].
  exact (X7_mem_fixed_cleanup_unobservable 2 60 storage "k" 70000 80000 ltac:(lia) ltac:(lia)).
Defined.

Lemma X8_fixed_window_run_witness :
  Forall (fun ms => Mem.getWindowStart 60 (ms / 1000) = 0) [0; 1000; 2000; 59999]
  /\ Forall (fun ms => Redis.windowKey "api" 60 "k" ms = (getKey Redis.PREFIX "api" "k", 0))
       [0; 1000; 2000; 59999]
  /\ (let rs := (Mem.consumeSeq 2 60 ∅ "k" [0; 1000; 2000; 59999]).1 in
      length rs = 4%nat
      /\ forall i r, rs !! i = Some r ->
         r = {| success := 0 + Z.of_nat i <? 2;
                remaining := Z.max 0 (2 - (0 + Z.of_nat i + 1)) |})
  /\ (let rs := (Redis.consumeSeq "api" 2 60 ∅ "k" [0; 1000; 2000; 59999]).1 in
      length rs = 4%nat
      /\ forall i r, rs !! i = Some r ->
         r = {| success := 0 + Z.of_nat i <? 2;
                remaining := Z.max 0 (2 - (0 + Z.of_nat i + 1)) |}).
Proof.
  assert (H1 : Forall (fun ms => Mem.getWindowStart 60 (ms / 1000) = 0) [0; 1000; 2000; 59999])
    by repeat constructor.
  assert (H2 : Forall (fun ms => Redis.windowKey "api" 60 "k" ms
                                 = (getKey Redis.PREFIX "api" "k", 0)) [0; 1000; 2000; 59999])
    by repeat constructor.
  split; [exact H1|]. split; [exact H2|]. split.
  - exact (proj1 X8_fixed_window_run 2 60 ∅ "k" _ 0 H1).
  - exact (proj2 X8_fixed_window_run "api" 2 60 ∅ "k" _ _ H2).
Defined.

End FixedWindowExtras.

(** ** Sliding window *)

Section SlidingWindowMore.
Import SlidingWindow.

(** After a rollover to [cws] the window starts at [cws]. *)
Lemma rollover_start (w : Mem.WindowData) (cws : Z) :
  Mem.currentWindowStart (Mem.rollover w cws) = cws.
Proof.
  unfold Mem.rollover. destruct (Z.eqb_spec (Mem.currentWindowStart w) cws); cbn; congruence.
Qed.

(** A window that starts at [cws] is not rolled over to [cws]. *)
Lemma rollover_same (w : Mem.WindowData) (cws : Z) :
  Mem.currentWindowStart w = cws -> Mem.rollover w cws = w.
Proof.
  intros H. unfold Mem.rollover. rewrite H, Z.eqb_refl. reflexivity.
Qed.

(** The weighted rate is non-negative for non-negative counters. *)
Lemma weighted_nonneg (interval : Z) (w : Mem.WindowData) (now : Z) :
  0 < interval -> 0 <= Mem.current w -> 0 <= Mem.previous w ->
  0 <= Mem.calculateWeightedRate interval w now.
Proof.
  intros Hi Hc Hp. unfold Mem.calculateWeightedRate. cbn zeta.
  pose proof (floor_not_negative _
                (mul_not_negative _ _ (of_Z_not_negative _ Hp) (max0_not_negative
                   (Double.div (Double.of_Z (Mem.currentWindowStart w + interval - now))
                      (Double.of_Z interval))))).
  lia.
Qed.

End SlidingWindowMore.

Section SlidingWindowExtras.
Import SlidingWindow.

(** X9.  What a sliding-window consume reports as [remaining] is what
    a getRemaining right after it (same instant) returns, whether the
    consume succeeded or not, in both backends. *)
Theorem X9_sliding_consume_then_read :
  (forall limit interval (windows : gmap string Mem.WindowData) key ms,
     (Mem.getRemaining limit interval (Mem.consume limit interval windows key ms).2 key ms).1
     = remaining (Mem.consume limit interval windows key ms).1)
  /\ (forall limit interval (store : Redis.Store) key ms,
     Redis.getRemaining limit interval (Redis.consume limit interval store key ms).2 key ms
     = remaining (Redis.consume limit interval store key ms).1).
Proof.
  split.
  - intros limit interval windows key ms.
    unfold Mem.consume, Mem.getRemaining. cbn zeta.
    set (cws := ms / 1000 / interval * interval).
    set (w := Mem.rollover _ cws).
    assert (Hw : Mem.currentWindowStart w = cws) by apply rollover_start.
    destruct (Z.leb_spec limit (Mem.calculateWeightedRate interval w (ms / 1000))); cbn;
      rewrite lookup_insert_eq; cbn.
    + rewrite (rollover_same w cws Hw). reflexivity.
    + rewrite rollover_same by exact Hw.
      unfold Mem.calculateWeightedRate at 1. cbn. unfold Mem.calculateWeightedRate.
      f_equal. f_equal. lia.
  - intros limit interval store key ms.
    unfold Redis.getRemaining, Redis.consume.
    set (w := Redis.currentWindow interval ms).
    unfold Redis.script. cbn zeta.
    unfold Redis.Store in *.
    set (p := default 0 (store !! (key, w - 1))) in *.
    set (c := default 0 (store !! (key, w))) in *.
    set (wc := Double.floor (Double.mul (Double.of_Z p) _)) in *.
    destruct (Z.leb_spec limit (wc + c)); cbn [fst snd remaining].
    + fold p c wc. reflexivity.
    + rewrite lookup_insert_eq, lookup_insert_ne by (intros E; injection E; lia).
      cbn [default from_option id]. fold p c. fold wc.
      destruct (Z.ltb_spec (limit - (wc + (c + 1))) 0);
        destruct (Z.ltb_spec (limit - (wc + c) - 1) 0); lia.
Qed.

(** X10.  A stale in-memory window is never forgotten by the reads: a
    window stored [j >= 1] windows before the current one is rolled over
    as if it were the previous window, so getRemaining reads the same as
    for the window one interval old with that count, and subtracts
    [floor(count * (overlap / interval))] (double precision), however old
    the window is.  Redis only looks at the counters of the current and of
    the previous window: with neither present, getRemaining reports the
    full limit whatever older counters hold. *)
Theorem X10_stale_window_weight :
  (forall limit interval (windows : gmap string Mem.WindowData) key ms w j,
     0 < interval -> 1 <= j ->
     windows !! key = Some w ->
     Mem.currentWindowStart w = ms / 1000 / interval * interval - j * interval ->
     (Mem.getRemaining limit interval windows key ms).1
     = (Mem.getRemaining limit interval
          (<[key := {| Mem.current := Mem.current w; Mem.previous := 0;
                       Mem.currentWindowStart := ms / 1000 / interval * interval - interval |}]>
             windows) key ms).1
     /\ (Mem.getRemaining limit interval windows key ms).1
        = Z.max 0 (limit - Double.floor (Double.mul (Double.of_Z (Mem.current w))
             (Double.max0 (Double.div
                (Double.of_Z (ms / 1000 / interval * interval + interval - ms / 1000))
                (Double.of_Z interval))))))
  /\ (forall limit interval (store : Redis.Store) key ms,
     0 <= limit ->
     store !! (key, Redis.currentWindow interval ms) = None ->
     store !! (key, Redis.currentWindow interval ms - 1) = None ->
     Redis.getRemaining limit interval store key ms = limit).
Proof.
  split.
  - intros limit interval windows key ms w j Hi Hj E Hs.
    unfold Mem.getRemaining. rewrite E, lookup_insert_eq. cbn [fst].
    unfold Mem.rollover. cbn [Mem.currentWindowStart Mem.current].
    destruct (Z.eqb_spec (Mem.currentWindowStart w) (ms / 1000 / interval * interval)); [nia|].
    destruct (Z.eqb_spec (ms / 1000 / interval * interval - interval)
                (ms / 1000 / interval * interval)); [lia|].
    cbn [negb]. split; [reflexivity|].
    unfold Mem.calculateWeightedRate. cbn [Mem.current Mem.previous Mem.currentWindowStart].
    reflexivity.
  - intros limit interval store key ms Hl E1 E2.
    unfold Redis.getRemaining, Redis.script. unfold Redis.Store in *. rewrite E1, E2.
    cbn [default from_option id]. cbn zeta.
    rewrite floor_mul_zero_l, Z.add_0_r, Z.sub_0_r.
    destruct (Z.ltb_spec limit 0); lia.
Qed.

(** X11.  The in-memory [cleanup] only ever helps a caller: with a
    positive interval and non-negative counters, after a cleanup at [ms]
    the getRemaining of a key at any instant is at least what it was
    without the cleanup, a consume that would have succeeded still
    succeeds, and both replies are unchanged for a window that
    [cleanup] keeps (one ending no more than two intervals before [ms]). *)
Theorem X11_mem_sliding_cleanup :
  forall limit interval (windows : gmap string Mem.WindowData) key ms ms',
  0 < limit -> 0 < interval ->
  (forall w, windows !! key = Some w -> 0 <= Mem.current w /\ 0 <= Mem.previous w) ->
  let windows' := Mem.cleanup interval windows ms in
  (Mem.getRemaining limit interval windows key ms').1
    <= (Mem.getRemaining limit interval windows' key ms').1
  /\ (success (Mem.consume limit interval windows key ms').1 = true ->
      success (Mem.consume limit interval windows' key ms').1 = true)
  /\ (forall w, windows !! key = Some w ->
      ms / 1000 - interval * 2 <= Mem.currentWindowStart w + interval ->
      (Mem.getRemaining limit interval windows' key ms').1
        = (Mem.getRemaining limit interval windows key ms').1
      /\ (Mem.consume limit interval windows' key ms').1
        = (Mem.consume limit interval windows key ms').1).
Proof.
  intros limit interval windows key ms ms' Hlim Hi Hn. cbn zeta.
  unfold Mem.getRemaining, Mem.consume. cbn zeta.
  destruct (windows !! key) as [w|] eqn:E.
  2:{ assert (E' : Mem.cleanup interval windows ms !! key = None).
      { unfold Mem.cleanup. rewrite lookup_filter_cases, E. reflexivity. }
      rewrite E'. cbn.
      split; [lia|]. split; [destruct (limit <=? _); cbn; tauto|]. intros w' Hw'. discriminate. }
  destruct (Hn w eq_refl) as [Hc Hp].
  assert (Hl : Mem.cleanup interval windows ms !! key
               = if decide (ms / 1000 - interval * 2 <= Mem.currentWindowStart w + interval)
                 then Some w else None).
  { unfold Mem.cleanup. cbn zeta. rewrite lookup_filter_cases, E.
    destruct (decide _); destruct (decide _); cbn in *; try reflexivity; lia. }
  rewrite Hl.
  set (cws := ms' / 1000 / interval * interval).
  assert (Hwr : 0 <= Mem.calculateWeightedRate interval (Mem.rollover w cws) (ms' / 1000)).
  { apply weighted_nonneg; [exact Hi| |]; unfold Mem.rollover;
      destruct (negb _); cbn; lia. }
  destruct (decide _) as [Hk|Hk].
  - split; [cbn; lia|]. split; [destruct (limit <=? _); cbn; tauto|].
    intros w' E1 _. injection E1 as <-.
    split; [reflexivity|destruct (limit <=? _); reflexivity].
  - split; [|split].
    + cbn. lia.
    + intros Hs.
      destruct (Z.leb_spec limit (Mem.calculateWeightedRate interval (Mem.rollover w cws)
                                    (ms' / 1000))); [discriminate|].
      rewrite (rollover_same {| Mem.current := 0; Mem.previous := 0;
                                Mem.currentWindowStart := cws |} cws eq_refl).
      assert (Hz : Mem.calculateWeightedRate interval {| Mem.current := 0; Mem.previous := 0;
                     Mem.currentWindowStart := cws |} (ms' / 1000) = 0)
        by (unfold Mem.calculateWeightedRate; cbn zeta; cbn [Mem.previous Mem.current];
            rewrite floor_mul_zero_l; reflexivity).
      rewrite Hz. destruct (Z.leb_spec limit 0); [lia|reflexivity].
    + intros w' E1 Hk'. injection E1 as <-. contradiction.
Qed.

Lemma X10_stale_window_weight_witness :
  let w := {| Mem.current := 5; Mem.previous := 0; Mem.currentWindowStart := 0 |} in
  (0 < 60 /\ 1 <= 3 /\ ({[ "k" := w ]} : gmap string Mem.WindowData) !! "k" = Some w
   /\ Mem.currentWindowStart w = 200000 / 1000 / 60 * 60 - 3 * 60
   /\ (Mem.getRemaining 10 60 {[ "k" := w ]} "k" 200000).1
      = Z.max 0 (10 - Double.floor (Double.mul (Double.of_Z (Mem.current w))
           (Double.max0 (Double.div
              (Double.of_Z (200000 / 1000 / 60 * 60 + 60 - 200000 / 1000))
              (Double.of_Z 60))))))
  /\ (0 <= 10 /\ (∅ : Redis.Store) !! ("k", Redis.currentWindow 60 5000) = None
      /\ (∅ : Redis.Store) !! ("k", Redis.currentWindow 60 5000 - 1) = None
      /\ Redis.getRemaining 10 60 ∅ "k" 5000 = 10).
Proof.
  intros w. split.
  - split; [lia|]. split; [lia|]. split; [reflexivity|]. split; [reflexivity|].
    exact (proj2 (proj1 X10_stale_window_weight 10 60 {[ "k" := w ]} "k" 200000 w 3
                    ltac:(lia) ltac:(lia) eq_refl eq_refl)).
  - split; [lia|]. split; [reflexivity|]. split; [reflexivity|].
    apply (proj2 X10_stale_window_weight 10 60 ∅ "k" 5000); [lia|reflexivity|reflexivity].
Defined.

Lemma X11_mem_sliding_cleanup_witness :
  let w := {| Mem.current := 5; Mem.previous := 3; Mem.currentWindowStart := 0 |} in
  let windows : gmap string Mem.WindowData := {[ "k" := w ]} in
  0 < 10 /\ 0 < 60
  /\ (forall w', windows !! "k" = Some w' -> 0 <= Mem.current w' /\ 0 <= Mem.previous w')
  /\ (Mem.getRemaining 10 60 windows "k" 300000).1
     <= (Mem.getRemaining 10 60 (Mem.cleanup 60 windows 300000) "k" 300000).1.
Proof.
  intros w windows.
  assert (Hn : forall w', windows !! "k" = Some w' -> 0 <= Mem.current w' /\ 0 <= Mem.previous w').
  { intros w' E. apply lookup_singleton_Some in E as [_ <-]. cbn. lia. }
  split; [lia|]. split; [lia|]. split; [exact Hn|].
  exact (proj1 (X11_mem_sliding_cleanup 10 60 windows "k" 300000 300000
                  ltac:(lia) ltac:(lia) Hn)).
Defined.

End SlidingWindowExtras.

(** ** Sliding log *)

Section SlidingLogMore.
Import SlidingLog.

Lemma store_zset_lookup (k : string) (z : Redis.ZSet) (store : gmap string Redis.ZSet) :
  default [] (Redis.store_zset k z store !! k) = z.
Proof.
  unfold Redis.store_zset. destruct z.
  - rewrite lookup_delete_eq. reflexivity.
  - rewrite lookup_insert_eq. reflexivity.
Qed.

(** [Redis.store_zset] only writes the given key, and keeps the property
    [Q] of all stored sets when the written set has it and [Q] holds of
    nothing stored. *)
Lemma store_zset_forall (Q : Redis.ZSet -> Prop) (k : string) (z : Redis.ZSet)
    (store : gmap string Redis.ZSet) :
  (forall k' z', store !! k' = Some z' -> Q z') -> Q z ->
  forall k' z', Redis.store_zset k z store !! k' = Some z' -> Q z'.
Proof.
  intros Hs Hz k' z' E. unfold Redis.store_zset in E. destruct z.
  - apply lookup_delete_Some in E as [_ E]. exact (Hs _ _ E).
  - destruct (decide (k = k')) as [<-|Hne].
    + rewrite lookup_insert_eq in E. injection E as <-. exact Hz.
    + rewrite lookup_insert_ne in E by exact Hne. exact (Hs _ _ E).
Qed.

Lemma filter_all {A} (P : A -> Prop) `{!forall x, Decision (P x)} (l : list A) :
  (forall x, x ∈ l -> P x) -> filter P l = l.
Proof.
  induction l as [|x l IH]; intros Hl; [reflexivity|].
  rewrite filter_cons_True by (apply Hl; left).
  rewrite IH; [reflexivity|]. intros y Hy. apply Hl. right. exact Hy.
Qed.

Lemma zset_filter_nodup (P : string * Z -> Prop) `{!forall x, Decision (P x)}
    (z : Redis.ZSet) :
  NoDup (fst <$> z) -> NoDup (fst <$> filter P z).
Proof.
  unfold Redis.ZSet in *. induction z as [|[m s] z IH]; intros Hn; [constructor|].
  simpl in Hn. apply NoDup_cons in Hn as [Hm Hn]. rewrite filter_cons.
  case_decide; simpl; [|auto]. apply NoDup_cons. split; [|auto].
  intros Hin. apply Hm. apply list_elem_of_fmap in Hin as [[m' s'] [Heq Hin']].
  apply list_elem_of_filter in Hin' as [_ Hin']. cbn in Heq. subst m'.
  apply list_elem_of_fmap. exists (m, s'). split; [reflexivity|exact Hin'].
Qed.

(** Removing the entries of a member that a set whose members are
    distinct holds once shortens it by one. *)
Lemma zset_remove_member_length (z : Redis.ZSet) (id : string) :
  NoDup (fst <$> z) -> id ∈ fst <$> z ->
  length (filter (fun e => e.1 <> id) z) = (length z - 1)%nat.
Proof.
  unfold Redis.ZSet in *. induction z as [|[m s] z IH]; intros Hn Hin.
  - apply elem_of_nil in Hin. contradiction.
  - simpl in Hn, Hin. apply NoDup_cons in Hn as [Hm Hn]. rewrite filter_cons.
    destruct (decide (m = id)) as [<-|Hne].
    + rewrite decide_False by (cbn; tauto).
      rewrite filter_all; [cbn; lia|]. intros [m' s'] Hx Heq. cbn in Heq. subst m'.
      apply Hm. apply list_elem_of_fmap. exists (m, s'). split; [reflexivity|exact Hx].
    + rewrite decide_True by (cbn; congruence). cbn.
      apply elem_of_cons in Hin as [Hin|Hin]; [congruence|].
      rewrite IH by assumption.
      destruct z; [apply elem_of_nil in Hin; contradiction|]. cbn. lia.
Qed.

Lemma zset_remove_absent (z : Redis.ZSet) (id : string) :
  id ∉ fst <$> z -> filter (fun e => e.1 <> id) z = z.
Proof.
  intros Hn. apply filter_all. intros [m s] Hx Heq. cbn in Heq. subst m.
  apply Hn. apply list_elem_of_fmap. exists (id, s). split; [reflexivity|exact Hx].
Qed.

(** Pruning a set just after adding an entry timed now keeps that entry. *)
Lemma zrem_zadd (z1 : Redis.ZSet) (ms m : Z) (id : string) :
  m < ms -> (forall e, e ∈ z1 -> m < e.2) ->
  Redis.zremrangebyscore (Redis.zadd z1 ms id) m = Redis.zadd z1 ms id.
Proof.
  intros Hm Hz. unfold Redis.zremrangebyscore, Redis.zadd. apply filter_all.
  intros [m' s'] Hx. apply elem_of_app in Hx as [Hx|Hx].
  - apply list_elem_of_filter in Hx as [_ Hx]. exact (Hz _ Hx).
  - apply list_elem_of_singleton in Hx. injection Hx as -> ->. exact Hm.
Qed.

Lemma zrem_live (z : Redis.ZSet) (m : Z) :
  forall e, e ∈ Redis.zremrangebyscore z m -> m < e.2.
Proof. intros e He. apply list_elem_of_filter in He as [He _]. exact He. Qed.

Lemma zadd_nodup (z : Redis.ZSet) (ms : Z) (id : string) :
  NoDup (fst <$> z) -> NoDup (fst <$> Redis.zadd z ms id).
Proof.
  intros Hn. unfold Redis.zadd. rewrite fmap_app. apply NoDup_app. split; [|split].
  - apply zset_filter_nodup. exact Hn.
  - intros x Hx Hx'. cbn in Hx'. apply list_elem_of_singleton in Hx'. subst x.
    apply list_elem_of_fmap in Hx as [[m s] [Heq Hin]]. cbn in Heq. subst m.
    apply list_elem_of_filter in Hin as [Hne _]. apply Hne. reflexivity.
  - apply NoDup_singleton.
Qed.

Lemma zadd_length (z : Redis.ZSet) (ms : Z) (id : string) :
  (length (Redis.zadd z ms id) <= length z + 1)%nat.
Proof.
  unfold Redis.zadd, Redis.ZSet in *. rewrite length_app.
  pose proof (length_filter (fun e : string * Z => e.1 <> id) z). cbn. lia.
Qed.

Lemma slidingLog_cutoff_mono (interval ms ms' : Z) :
  ms <= ms' -> ms / 1000 - interval <= ms' / 1000 - interval.
Proof. intros H. pose proof (Z.div_le_mono ms ms' 1000 ltac:(lia) H). lia. Qed.

End SlidingLogMore.

Section SlidingLogExtras.
Import SlidingLog.

(** X12.  What a sliding-log consume reports as [remaining] is what a
    getRemaining right after it (same instant) returns, on success and on
    rejection: in memory for a positive interval; in Redis for a positive
    interval and a request id that is not already a live member of the
    key's sorted set. *)
Theorem X12_slidingLog_consume_then_read :
  (forall limit interval (storage : gmap string (list Z)) key ms,
     0 < interval ->
     Mem.getRemaining limit interval (Mem.consume limit interval storage key ms).2 key ms
     = remaining (Mem.consume limit interval storage key ms).1)
  /\ (forall limit interval (store : gmap string Redis.ZSet) key requestId ms,
     0 < interval ->
     let k := Redis.PREFIX +:+ ":" +:+ key in
     requestId ∉ fst <$> Redis.zremrangebyscore (default [] (store !! k))
                            (ms - Redis.interval_ms interval) ->
     (Redis.getRemaining limit interval
        (Redis.consume limit interval store key requestId ms).2 key ms).1
     = remaining (Redis.consume limit interval store key requestId ms).1).
Proof.
  split.
  - intros limit interval storage key ms Hi.
    unfold Mem.consume, Mem.getRemaining. cbn zeta.
    set (v := filter (fun t => ms / 1000 - interval < t) (default [] (storage !! key))).
    assert (Hv : filter (fun t => ms / 1000 - interval < t) v = v)
      by (unfold v; apply list_filter_filter_l; auto).
    destruct (Z.leb_spec limit (Z.of_nat (length v))); cbn; rewrite lookup_insert_eq.
    + rewrite Hv. lia.
    + rewrite filter_app, Hv, filter_cons_True by lia. cbn. rewrite !length_app. cbn. lia.
  - intros limit interval store key requestId ms Hi. cbn zeta.
    set (k := Redis.PREFIX +:+ ":" +:+ key).
    set (z1 := Redis.zremrangebyscore (default [] (store !! k)) (ms - Redis.interval_ms interval)).
    intros Hid.
    assert (Hms : 0 < Redis.interval_ms interval) by (unfold Redis.interval_ms; lia).
    unfold Redis.consume, Redis.getRemaining, Redis.consumeSlidingLog. fold k. cbn zeta. fold z1.
    destruct (Z.ltb_spec (Redis.zcard z1) limit);
      cbn -[Redis.zremrangebyscore Redis.zadd Redis.zcard Redis.store_zset Redis.getSlidingLog];
      rewrite store_zset_lookup; unfold Redis.getSlidingLog; cbn zeta.
    + rewrite zrem_zadd by (try apply zrem_live; lia).
      assert (Hc : Redis.zcard (Redis.zadd z1 ms requestId) = Redis.zcard z1 + 1).
      { unfold Redis.zcard, Redis.zadd. rewrite zset_remove_absent by exact Hid.
        rewrite length_app. cbn. lia. }
      rewrite Hc. cbn. destruct (Z.ltb_spec (limit - (Redis.zcard z1 + 1)) 0); lia.
    + assert (Hz : Redis.zremrangebyscore z1 (ms - Redis.interval_ms interval) = z1)
        by (unfold z1; apply zremrangebyscore_idem).
      rewrite Hz. cbn.
      destruct (Z.ltb_spec (limit - Redis.zcard z1) 0); lia.
Qed.

(** X13.  A request id that is already live in the Redis sorted set is
    accepted without being counted: at a positive interval, if the key's
    set has distinct members, holds fewer than [limit] live entries and
    [requestId] is one of them, consume succeeds and reports
    [limit - (count + 1)] remaining, but the stored set keeps [count]
    entries (the member only gets the new score), so a getRemaining right
    after it reports [limit - count]. *)
Theorem X13_slidingLog_repeated_id :
  forall limit interval (store : gmap string Redis.ZSet) key requestId ms,
  0 < interval ->
  let k := Redis.PREFIX +:+ ":" +:+ key in
  let z1 := Redis.zremrangebyscore (default [] (store !! k)) (ms - Redis.interval_ms interval) in
  NoDup (fst <$> default [] (store !! k)) ->
  requestId ∈ fst <$> z1 -> Redis.zcard z1 < limit ->
  let r := Redis.consume limit interval store key requestId ms in
  success r.1 = true
  /\ remaining r.1 = limit - (Redis.zcard z1 + 1)
  /\ Redis.zcard (default [] (r.2 !! k)) = Redis.zcard z1
  /\ (Redis.getRemaining limit interval r.2 key ms).1 = limit - Redis.zcard z1.
Proof.
  intros limit interval store key requestId ms Hi. cbn zeta.
  set (k := Redis.PREFIX +:+ ":" +:+ key).
  set (z1 := Redis.zremrangebyscore (default [] (store !! k)) (ms - Redis.interval_ms interval)).
  intros Hn Hid Hlt.
  assert (Hms : 0 < Redis.interval_ms interval) by (unfold Redis.interval_ms; lia).
  assert (Hn1 : NoDup (fst <$> z1)) by (apply zset_filter_nodup; exact Hn).
  assert (Hc : Redis.zcard (Redis.zadd z1 ms requestId) = Redis.zcard z1).
  { unfold Redis.zcard, Redis.zadd. rewrite length_app.
    rewrite zset_remove_member_length by assumption.
    assert (length z1 <> 0%nat).
    { intros E. destruct z1; [apply elem_of_nil in Hid; exact Hid|discriminate]. }
    cbn. lia. }
  unfold Redis.consume, Redis.getRemaining, Redis.consumeSlidingLog. fold k. cbn zeta. fold z1.
  rewrite (proj2 (Z.ltb_lt _ _) Hlt).
  cbn -[Redis.zremrangebyscore Redis.zadd Redis.zcard Redis.store_zset Redis.getSlidingLog].
  rewrite store_zset_lookup. split; [reflexivity|]. split; [reflexivity|].
  split; [exact Hc|].
  unfold Redis.getSlidingLog. cbn zeta.
  rewrite zrem_zadd by (try apply zrem_live; lia). rewrite Hc. cbn.
  destruct (Z.ltb_spec (limit - Redis.zcard z1) 0); lia.
Qed.

(** X14.  In memory, getRemaining is [max 0 (limit - getActiveRequests)],
    a consume succeeds exactly when fewer than [limit] requests are active,
    and it raises the active count by one when it succeeds and leaves it
    as it is when it fails (non-negative limit, positive interval). *)
Theorem X14_mem_slidingLog_active :
  forall limit interval (storage : gmap string (list Z)) key ms,
  0 <= limit -> 0 < interval ->
  let a := Mem.getActiveRequests interval storage key ms in
  Mem.getRemaining limit interval storage key ms = Z.max 0 (limit - a)
  /\ success (Mem.consume limit interval storage key ms).1 = (a <? limit)
  /\ Mem.getActiveRequests interval (Mem.consume limit interval storage key ms).2 key ms
     = if a <? limit then a + 1 else a.
Proof.
  intros limit interval storage key ms Hl Hi. cbn zeta.
  unfold Mem.getActiveRequests, Mem.getRemaining, Mem.consume. cbn zeta.
  set (P := fun t => ms / 1000 - interval < t).
  destruct (storage !! key) as [ts|] eqn:E; cbn [default from_option id].
  - set (v := filter P ts).
    assert (Hv : filter P v = v) by (unfold v; apply list_filter_filter_l; auto).
    split; [reflexivity|].
    destruct (Z.leb_spec limit (Z.of_nat (length v)));
      destruct (Z.ltb_spec (Z.of_nat (length v)) limit); try lia; cbn;
      rewrite lookup_insert_eq.
    + split; [reflexivity|]. rewrite Hv. reflexivity.
    + split; [reflexivity|]. rewrite filter_app, Hv.
      unfold P. rewrite filter_cons_True by lia. rewrite length_app. cbn. lia.
  - split; [lia|]. cbn.
    destruct (Z.leb_spec limit (Z.of_nat 0)); destruct (Z.ltb_spec 0 limit); try lia; cbn;
      rewrite lookup_insert_eq.
    + split; reflexivity.
    + split; [reflexivity|]. unfold P. rewrite filter_cons_True by lia. reflexivity.
Qed.

(** X15.  The in-memory [cleanup] cannot be observed: after a cleanup at
    [ms], consume, getRemaining and getActiveRequests at any later instant
    reply as they would have without it (non-negative limit), and no key is
    left holding an empty list. *)
Theorem X15_mem_slidingLog_cleanup :
  forall limit interval (storage : gmap string (list Z)) key ms ms',
  0 <= limit -> ms <= ms' ->
  let storage' := Mem.cleanup interval storage ms in
  (Mem.consume limit interval storage' key ms').1 = (Mem.consume limit interval storage key ms').1
  /\ Mem.getRemaining limit interval storage' key ms' = Mem.getRemaining limit interval storage key ms'
  /\ Mem.getActiveRequests interval storage' key ms' = Mem.getActiveRequests interval storage key ms'
  /\ (forall k ts, storage' !! k = Some ts -> ts <> []).
Proof.
  intros limit interval storage key ms ms' Hl Hms. cbn zeta.
  pose proof (slidingLog_cutoff_mono interval ms ms' Hms) as Hc.
  set (P := fun t => ms / 1000 - interval < t).
  set (P' := fun t => ms' / 1000 - interval < t).
  assert (Hf : forall ts : list Z, filter P' (filter P ts) = filter P' ts).
  { intros ts. apply list_filter_filter_l. unfold P, P'. intros x Hx. lia. }
  split; [|split; [|split]].
  - unfold Mem.consume, Mem.cleanup. cbn zeta. fold P P'. rewrite lookup_omap.
    destruct (storage !! key) as [ts|]; cbn [default from_option id mbind option_bind]; [|destruct (limit <=? _); reflexivity].
    destruct (filter P ts) as [|t l] eqn:F; cbn [default from_option id].
    + assert (F' : filter P' ts = []) by (rewrite <- Hf, F; reflexivity).
      rewrite F', filter_nil. destruct (limit <=? _); reflexivity.
    + rewrite <- F, Hf. destruct (limit <=? _); reflexivity.
  - unfold Mem.getRemaining, Mem.cleanup. cbn zeta. fold P P'. rewrite lookup_omap.
    destruct (storage !! key) as [ts|]; cbn [mbind option_bind]; [|reflexivity].
    destruct (filter P ts) as [|t l] eqn:F.
    + assert (F' : filter P' ts = []) by (rewrite <- Hf, F; reflexivity).
      rewrite F'. cbn. lia.
    + rewrite <- F, Hf. reflexivity.
  - unfold Mem.getActiveRequests, Mem.cleanup. cbn zeta. fold P P'. rewrite lookup_omap.
    destruct (storage !! key) as [ts|]; cbn [mbind option_bind]; [|reflexivity].
    destruct (filter P ts) as [|t l] eqn:F.
    + assert (F' : filter P' ts = []) by (rewrite <- Hf, F; reflexivity).
      rewrite F'. reflexivity.
    + rewrite <- F, Hf. reflexivity.
  - intros k ts E. unfold Mem.cleanup in E. apply lookup_omap_Some in E as [x [Hx _]].
    destruct (filter _ x); [discriminate|]. injection Hx as <-. discriminate.
Qed.

(** X16.  Neither backend ever stores more than [limit] timestamps for a
    key: in memory, if every stored list has at most [limit] entries, so
    does every list after a consume or a cleanup; in Redis, if every stored
    sorted set has at most [limit] entries and distinct members, so does
    every set after a consume (whatever the request id) or a getRemaining
    (non-negative limit). *)
Theorem X16_slidingLog_size_bound :
  (forall limit interval (storage : gmap string (list Z)) key ms,
     0 <= limit ->
     (forall k ts, storage !! k = Some ts -> Z.of_nat (length ts) <= limit) ->
     (forall k ts, (Mem.consume limit interval storage key ms).2 !! k = Some ts ->
                   Z.of_nat (length ts) <= limit)
     /\ (forall k ts, Mem.cleanup interval storage ms !! k = Some ts ->
                      Z.of_nat (length ts) <= limit))
  /\ (forall limit interval (store : gmap string Redis.ZSet) key requestId ms,
     0 <= limit ->
     (forall k z, store !! k = Some z -> Redis.zcard z <= limit /\ NoDup (fst <$> z)) ->
     (forall k z, (Redis.consume limit interval store key requestId ms).2 !! k = Some z ->
                  Redis.zcard z <= limit /\ NoDup (fst <$> z))
     /\ (forall k z, (Redis.getRemaining limit interval store key ms).2 !! k = Some z ->
                     Redis.zcard z <= limit /\ NoDup (fst <$> z))).
Proof.
  split.
  - intros limit interval storage key ms Hl Hs. split.
    + intros k ts E. unfold Mem.consume in E. cbn zeta in E.
      set (P := fun t => ms / 1000 - interval < t) in E.
      assert (Hv : Z.of_nat (length (filter P (default [] (storage !! key)))) <= limit).
      { pose proof (length_filter P (default [] (storage !! key))).
        destruct (storage !! key) as [ts0|] eqn:E0; cbn [default from_option id] in *.
        - pose proof (Hs key ts0 E0). lia.
        - cbn. lia. }
      destruct (Z.leb_spec limit (Z.of_nat (length (filter P (default [] (storage !! key))))));
        cbn in E.
      * destruct (decide (key = k)) as [<-|Hne].
        -- rewrite lookup_insert_eq in E. injection E as <-. exact Hv.
        -- rewrite lookup_insert_ne in E by exact Hne. exact (Hs _ _ E).
      * destruct (decide (key = k)) as [<-|Hne].
        -- rewrite lookup_insert_eq in E. injection E as <-. rewrite length_app. cbn. lia.
        -- rewrite lookup_insert_ne in E by exact Hne. exact (Hs _ _ E).
    + intros k ts E. unfold Mem.cleanup in E. apply lookup_omap_Some in E as [x [Hx Ex]].
      pose proof (Hs k x Ex).
      pose proof (length_filter (fun t => ms / 1000 - interval < t) x).
      destruct (filter _ x) eqn:F; [discriminate|]. injection Hx as <-.
      lia.
  - intros limit interval store key requestId ms Hl Hs.
    set (k := Redis.PREFIX +:+ ":" +:+ key).
    set (z0 := default [] (store !! k)).
    assert (H0 : Redis.zcard z0 <= limit /\ NoDup (fst <$> z0)).
    { unfold z0. destruct (store !! k) as [z|] eqn:E; [exact (Hs _ _ E)|].
      split; [change (Redis.zcard (default [] None)) with 0; lia|cbn; constructor]. }
    set (z1 := Redis.zremrangebyscore z0 (ms - Redis.interval_ms interval)).
    assert (H1 : Redis.zcard z1 <= limit /\ NoDup (fst <$> z1)).
    { destruct H0 as [Hc Hn]. split.
      - unfold Redis.zcard in *. unfold z1, Redis.zremrangebyscore, Redis.ZSet in *.
        pose proof (length_filter (fun e : string * Z => ms - Redis.interval_ms interval < e.2) z0).
        lia.
      - apply zset_filter_nodup. exact Hn. }
    split.
    + unfold Redis.consume, Redis.consumeSlidingLog. fold k. cbn zeta. fold z0 z1.
      destruct (Z.ltb_spec (Redis.zcard z1) limit);
        cbn -[Redis.zremrangebyscore Redis.zadd Redis.zcard Redis.store_zset];
        apply store_zset_forall; try exact Hs; [|exact H1].
      split.
      * pose proof (zadd_length z1 ms requestId). unfold Redis.zcard in *. lia.
      * apply zadd_nodup. exact (proj2 H1).
    + unfold Redis.getRemaining, Redis.getSlidingLog. fold k. cbn zeta. fold z0 z1.
      cbn -[Redis.zremrangebyscore Redis.zcard Redis.store_zset].
      apply store_zset_forall; [exact Hs|exact H1].
Qed.

Lemma X12_slidingLog_consume_then_read_witness :
  let store : gmap string Redis.ZSet := {[ Redis.PREFIX +:+ ":" +:+ "k" := [("a", 1000)] ]} in
  0 < 60
  /\ ("b" ∉ fst <$> Redis.zremrangebyscore (default [] (store !! (Redis.PREFIX +:+ ":" +:+ "k")))
                     (2000 - Redis.interval_ms 60))
  /\ Mem.getRemaining 3 60 (Mem.consume 3 60 {[ "k" := [1] ]} "k" 2000).2 "k" 2000
     = remaining (Mem.consume 3 60 {[ "k" := [1] ]} "k" 2000).1
  /\ (Redis.getRemaining 3 60 (Redis.consume 3 60 store "k" "b" 2000).2 "k" 2000).1
     = remaining (Redis.consume 3 60 store "k" "b" 2000).1.
Proof.
  intros store.
  assert (Hb : "b" ∉ fst <$> Redis.zremrangebyscore
                 (default [] (store !! (Redis.PREFIX +:+ ":" +:+ "k"))) (2000 - Redis.interval_ms 60))
    by (apply (bool_decide_unpack _); vm_compute; reflexivity).
  split; [lia|]. split; [exact Hb|]. split.
  - exact (proj1 X12_slidingLog_consume_then_read 3 60 {[ "k" := [1] ]} "k" 2000 ltac:(lia)).
  - exact (proj2 X12_slidingLog_consume_then_read 3 60 store "k" "b" 2000 ltac:(lia) Hb).
Defined.

Lemma X13_slidingLog_repeated_id_witness :
  let store : gmap string Redis.ZSet := {[ Redis.PREFIX +:+ ":" +:+ "k" := [("a", 1000)] ]} in
  let k := Redis.PREFIX +:+ ":" +:+ "k" in
  let z1 := Redis.zremrangebyscore (default [] (store !! k)) (2000 - Redis.interval_ms 60) in
  0 < 60 /\ NoDup (fst <$> default [] (store !! k)) /\ "a" ∈ fst <$> z1 /\ Redis.zcard z1 < 3
  /\ (let r := Redis.consume 3 60 store "k" "a" 2000 in
      success r.1 = true
      /\ remaining r.1 = 3 - (Redis.zcard z1 + 1)
      /\ Redis.zcard (default [] (r.2 !! k)) = Redis.zcard z1
      /\ (Redis.getRemaining 3 60 r.2 "k" 2000).1 = 3 - Redis.zcard z1).
Proof.
  intros store k z1.
  assert (Hn : NoDup (fst <$> default [] (store !! k)))
    by (apply (bool_decide_unpack _); vm_compute; reflexivity).
  assert (Ha : "a" ∈ fst <$> z1) by (apply (bool_decide_unpack _); vm_compute; reflexivity).
  assert (Hc : Redis.zcard z1 < 3) by (vm_compute; reflexivity).
  split; [lia|]. split; [exact Hn|]. split; [exact Ha|]. split; [exact Hc|].
  exact (X13_slidingLog_repeated_id 3 60 store "k" "a" 2000 ltac:(lia) Hn Ha Hc).
Defined.

Lemma X14_mem_slidingLog_active_witness :
  let storage : gmap string (list Z) := {[ "k" := [1; 50] ]} in
  0 <= 2 /\ 0 < 60
  /\ (let a := Mem.getActiveRequests 60 storage "k" 70000 in
      Mem.getRemaining 2 60 storage "k" 70000 = Z.max 0 (2 - a)
      /\ success (Mem.consume 2 60 storage "k" 70000).1 = (a <? 2)
      /\ Mem.getActiveRequests 60 (Mem.consume 2 60 storage "k" 70000).2 "k" 70000
         = if a <? 2 then a + 1 else a).
Proof.
  intros storage. split; [lia|]. split; [lia|].
  exact (X14_mem_slidingLog_active 2 60 storage "k" 70000 ltac:(lia) ltac:(lia)).
Defined.

Lemma X15_mem_slidingLog_cleanup_witness :
  let storage : gmap string (list Z) := {[ "k" := [1; 50] ]} in
  0 <= 2 /\ 70000 <= 100000
  /\ (let storage' := Mem.cleanup 60 storage 70000 in
      (Mem.consume 2 60 storage' "k" 100000).1 = (Mem.consume 2 60 storage "k" 100000).1
      /\ Mem.getRemaining 2 60 storage' "k" 100000 = Mem.getRemaining 2 60 storage "k" 100000
      /\ Mem.getActiveRequests 60 storage' "k" 100000
         = Mem.getActiveRequests 60 storage "k" 100000
      /\ (forall k ts, storage' !! k = Some ts -> ts <> [])).
Proof.
  intros storage. split; [lia|]. split; [lia|].
  exact (X15_mem_slidingLog_cleanup 2 60 storage "k" 70000 100000 ltac:(lia) ltac:(lia)).
Defined.

Lemma X16_slidingLog_size_bound_witness :
  let storage : gmap string (list Z) := {[ "k" := [1; 50] ]} in
  let store : gmap string Redis.ZSet := {[ Redis.PREFIX +:+ ":" +:+ "k" := [("a", 1000)] ]} in
  0 <= 2
  /\ (forall k ts, storage !! k = Some ts -> Z.of_nat (length ts) <= 2)
  /\ (forall k z, store !! k = Some z -> Redis.zcard z <= 2 /\ NoDup (fst <$> z))
  /\ (forall k ts, (Mem.consume 2 60 storage "k" 70000).2 !! k = Some ts ->
                   Z.of_nat (length ts) <= 2)
  /\ (forall k z, (Redis.consume 2 60 store "k" "b" 2000).2 !! k = Some z ->
                  Redis.zcard z <= 2 /\ NoDup (fst <$> z)).
Proof.
  intros storage store.
  assert (Hs : forall k ts, storage !! k = Some ts -> Z.of_nat (length ts) <= 2).
  { intros k ts E. apply lookup_singleton_Some in E as [_ <-]. cbn. lia. }
  assert (Hr : forall k z, store !! k = Some z -> Redis.zcard z <= 2 /\ NoDup (fst <$> z)).
  { intros k z E. apply lookup_singleton_Some in E as [_ <-].
    split; [vm_compute; discriminate|apply (bool_decide_unpack _); vm_compute; reflexivity]. }
  split; [lia|]. split; [exact Hs|]. split; [exact Hr|]. split.
  - exact (proj1 (proj1 X16_slidingLog_size_bound 2 60 storage "k" 70000 ltac:(lia) Hs)).
  - exact (proj1 (proj2 X16_slidingLog_size_bound 2 60 store "k" "b" 2000 ltac:(lia) Hr)).
Defined.

End SlidingLogExtras.

(** ** Leaky bucket *)

Section LeakyBucketMore.
Import LeakyBucket.

(** Dropping the entries expired at [n] and then those expired at a later
    [n'] drops the entries expired at [n']. *)
Lemma cleanupExpired_compose (q : Mem.QueueState) (n n' : Z) :
  n <= n' -> Mem.cleanupExpired (Mem.cleanupExpired q n) n' = Mem.cleanupExpired q n'.
Proof.
  intros H. unfold Mem.cleanupExpired. cbn. f_equal.
  apply list_filter_filter_l. intros x Hx. lia.
Qed.

(** The in-memory replies depend on the map only through the live
    entries of the key's queue (an absent queue counts as empty). *)
Lemma mem_leaky_view (capacity interval : Z) (s1 s2 : gmap string Mem.QueueState)
    (key : string) (ms : Z) :
  Mem.cleanupExpired (default {| Mem.items := [] |} (s1 !! key)) (ms / 1000)
  = Mem.cleanupExpired (default {| Mem.items := [] |} (s2 !! key)) (ms / 1000) ->
  (Mem.getState capacity s1 key ms).1 = (Mem.getState capacity s2 key ms).1
  /\ (Mem.consume capacity interval s1 key ms).1 = (Mem.consume capacity interval s2 key ms).1.
Proof.
  intros H. unfold Mem.getState, Mem.consume, Mem.getOrCreateQueue. cbn zeta.
  destruct (s1 !! key) as [q1|]; destruct (s2 !! key) as [q2|];
    cbn [default from_option id] in H; cbv beta iota zeta; try rewrite H;
    (split; [reflexivity|]); destruct (capacity <=? _); reflexivity.
Qed.

End LeakyBucketMore.

Section LeakyBucketExtras.
Import LeakyBucket.

(** X17.  What a leaky-bucket consume reports as [remaining] is the
    [remaining] of a getState right after it (same instant), on success
    and on rejection: in memory for a positive interval, in Redis for a
    non-negative one. *)
Theorem X17_leaky_consume_then_read :
  (forall capacity interval (queues : gmap string Mem.QueueState) key ms,
     0 < interval ->
     stateRemaining (Mem.getState capacity (Mem.consume capacity interval queues key ms).2 key ms).1
     = remaining (Mem.consume capacity interval queues key ms).1)
  /\ (forall capacity interval (store : gmap string Redis.RList) key requestId ms,
     0 <= interval ->
     stateRemaining (Redis.getState capacity
                       (Redis.consume capacity interval store key requestId ms).2 key ms)
     = remaining (Redis.consume capacity interval store key requestId ms).1).
Proof.
  split.
  - intros capacity interval queues key ms Hi.
    unfold Mem.consume. cbn zeta.
    destruct (Mem.getOrCreateQueue queues key) as [q0 queues1].
    set (q := Mem.cleanupExpired q0 (ms / 1000)).
    destruct (Z.leb_spec capacity (Z.of_nat (length (Mem.items q)))); cbn.
    + unfold Mem.getState, Mem.getOrCreateQueue. rewrite lookup_insert_eq.
      unfold q in *. cbn in *. rewrite list_filter_filter_l by (intros; lia). lia.
    + unfold Mem.getState, Mem.getOrCreateQueue. rewrite lookup_insert_eq.
      unfold q in *. cbn in *. rewrite filter_app, list_filter_filter_l by (intros; lia).
      rewrite filter_cons_True by (cbn; lia). rewrite filter_nil, !length_app. cbn. lia.
  - intros capacity interval store key requestId ms Hi.
    unfold Redis.consume, Redis.getState. cbn zeta.
    set (k := Redis.PREFIX +:+ ":" +:+ key).
    set (l := Redis.live store k ms).
    destruct (Z.ltb_spec (Z.of_nat (length l)) capacity); cbn.
    + assert (Hl : Redis.live (<[k := {| Redis.elems := l ++ [requestId];
                                         Redis.expireAt := ms + 1000 * interval |}]> store) k ms
                   = l ++ [requestId]).
      { unfold Redis.live. rewrite lookup_insert_eq. cbn.
        rewrite (proj2 (Z.leb_le ms (ms + 1000 * interval)) ltac:(lia)). reflexivity. }
      rewrite Hl, length_app. cbn.
      destruct (Z.ltb_spec (capacity - Z.of_nat (length l + 1)) 0); lia.
    + fold l. destruct (Z.ltb_spec (capacity - Z.of_nat (length l)) 0); lia.
Qed.

(** X18.  The in-memory [cleanupAllExpired] cannot be observed: after it
    ran at [ms], getState and consume at any later instant reply as they
    would have without it, and no key is left holding an empty queue. *)
Theorem X18_mem_leaky_cleanup_unobservable :
  forall capacity interval (queues : gmap string Mem.QueueState) key ms ms',
  ms <= ms' ->
  let queues' := Mem.cleanupAllExpired queues ms in
  (Mem.getState capacity queues' key ms').1 = (Mem.getState capacity queues key ms').1
  /\ (Mem.consume capacity interval queues' key ms').1
     = (Mem.consume capacity interval queues key ms').1
  /\ (forall k q, queues' !! k = Some q -> Mem.items q <> []).
Proof.
  intros capacity interval queues key ms ms' H. cbn zeta.
  assert (Hn : ms / 1000 <= ms' / 1000) by (apply Z.div_le_mono; lia).
  assert (Hv : Mem.cleanupExpired
                 (default {| Mem.items := [] |} (Mem.cleanupAllExpired queues ms !! key)) (ms' / 1000)
               = Mem.cleanupExpired (default {| Mem.items := [] |} (queues !! key)) (ms' / 1000)).
  { unfold Mem.cleanupAllExpired. cbn zeta. rewrite lookup_omap.
    destruct (queues !! key) as [q|]; cbn [mbind option_bind default from_option id];
      [|reflexivity].
    destruct (Nat.eqb_spec (length (Mem.items (Mem.cleanupExpired q (ms / 1000)))) 0) as [E|E];
      cbn [default from_option id].
    - rewrite <- (cleanupExpired_compose q (ms / 1000) (ms' / 1000) Hn).
      destruct (Mem.cleanupExpired q (ms / 1000)) as [[|x l]]; [|discriminate].
      reflexivity.
    - apply cleanupExpired_compose. exact Hn. }
  destruct (mem_leaky_view capacity interval _ _ key ms' Hv) as [H1 H2].
  split; [exact H1|]. split; [exact H2|].
  intros k q E. unfold Mem.cleanupAllExpired in E. apply lookup_omap_Some in E as [x [Hx _]].
  destruct (Nat.eqb_spec (length (Mem.items (Mem.cleanupExpired x (ms / 1000)))) 0) as [E0|E0];
    [discriminate|]. injection Hx as <-. intros Hq. rewrite Hq in E0. apply E0. reflexivity.
Qed.

(** X19.  No queue ever holds more than [capacity] entries: in memory, if
    every stored queue holds at most [capacity] entries, so does every
    queue after a consume, a getState or a cleanupAllExpired (non-negative
    capacity); in Redis, if every stored list has at most [capacity]
    elements, so does every list after a consume. *)
Theorem X19_leaky_capacity_bound :
  (forall capacity interval (queues : gmap string Mem.QueueState) key ms,
     0 <= capacity ->
     (forall k q, queues !! k = Some q -> Z.of_nat (length (Mem.items q)) <= capacity) ->
     (forall k q, (Mem.consume capacity interval queues key ms).2 !! k = Some q ->
                  Z.of_nat (length (Mem.items q)) <= capacity)
     /\ (forall k q, (Mem.getState capacity queues key ms).2 !! k = Some q ->
                     Z.of_nat (length (Mem.items q)) <= capacity)
     /\ (forall k q, Mem.cleanupAllExpired queues ms !! k = Some q ->
                     Z.of_nat (length (Mem.items q)) <= capacity))
  /\ (forall capacity interval (store : gmap string Redis.RList) key requestId ms,
     (forall k l, store !! k = Some l -> Z.of_nat (length (Redis.elems l)) <= capacity) ->
     (forall k l, (Redis.consume capacity interval store key requestId ms).2 !! k = Some l ->
                  Z.of_nat (length (Redis.elems l)) <= capacity)).
Proof.
  assert (Hins : forall {V} (P : V -> Prop) (m : gmap string V) k v,
            (forall k' v', m !! k' = Some v' -> P v') -> P v ->
            forall k' v', <[k := v]> m !! k' = Some v' -> P v').
  { intros V P m k v Hm Hp k' v' E.
    destruct (decide (k = k')) as [<-|Hne].
    - rewrite lookup_insert_eq in E. injection E as <-. exact Hp.
    - rewrite lookup_insert_ne in E by exact Hne. exact (Hm _ _ E). }
  assert (Hclean : forall q n, (length (Mem.items (Mem.cleanupExpired q n))
                                <= length (Mem.items q))%nat)
    by (intros q n; apply length_filter).
  split.
  - intros capacity interval queues key ms Hc Hq.
    set (P := fun q : Mem.QueueState => Z.of_nat (length (Mem.items q)) <= capacity).
    assert (Hg : P (Mem.getOrCreateQueue queues key).1
                 /\ forall k q, (Mem.getOrCreateQueue queues key).2 !! k = Some q -> P q).
    { unfold Mem.getOrCreateQueue. destruct (queues !! key) as [q|] eqn:E; cbn.
      - split; [exact (Hq _ _ E)|exact Hq].
      - split; [unfold P; cbn; lia|]. apply (Hins _ P); [exact Hq|unfold P; cbn; lia]. }
    destruct (Mem.getOrCreateQueue queues key) as [q0 queues1] eqn:E0.
    cbn [fst snd] in Hg. destruct Hg as [Hg0 Hg1].
    assert (Hq0 : P (Mem.cleanupExpired q0 (ms / 1000))).
    { unfold P in *. pose proof (Hclean q0 (ms / 1000)). lia. }
    split; [|split].
    + unfold Mem.consume. rewrite E0. cbn zeta.
      destruct (Z.leb_spec capacity
                 (Z.of_nat (length (Mem.items (Mem.cleanupExpired q0 (ms / 1000))))));
        cbn [fst snd]; apply (Hins _ P); try exact Hg1; [exact Hq0|].
      unfold P. cbn [Mem.items]. rewrite length_app. cbn [length]. lia.
    + unfold Mem.getState. rewrite E0. cbn. apply (Hins _ P); [exact Hg1|exact Hq0].
    + intros k q E. unfold Mem.cleanupAllExpired in E.
      apply lookup_omap_Some in E as [x [Hx Ex]].
      destruct (Nat.eqb _ 0); [discriminate|]. injection Hx as <-.
      pose proof (Hq k x Ex). pose proof (Hclean x (ms / 1000)). lia.
  - intros capacity interval store key requestId ms Hs.
    unfold Redis.consume. cbn zeta.
    destruct (Z.ltb_spec (Z.of_nat (length (Redis.live store (Redis.PREFIX +:+ ":" +:+ key) ms)))
                capacity); cbn; [|exact Hs].
    apply (Hins _ (fun l => Z.of_nat (length (Redis.elems l)) <= capacity)); [exact Hs|].
    cbn. rewrite length_app. cbn. lia.
Qed.

Lemma X17_leaky_consume_then_read_witness :
  0 < 5 /\ 0 <= 5 /\
  stateRemaining (Mem.getState 3
    (Mem.consume 3 5 ({[ "a" := {| Mem.items := [{| Mem.expiresAt := 7 |}] |} ]}
                       : gmap string Mem.QueueState) "a" 4000).2 "a" 4000).1
  = remaining (Mem.consume 3 5 ({[ "a" := {| Mem.items := [{| Mem.expiresAt := 7 |}] |} ]}
                       : gmap string Mem.QueueState) "a" 4000).1
  /\ stateRemaining (Redis.getState 3
       (Redis.consume 3 5 (∅ : gmap string Redis.RList) "a" "r1" 4000).2 "a" 4000)
     = remaining (Redis.consume 3 5 (∅ : gmap string Redis.RList) "a" "r1" 4000).1.
Proof.
  split; [lia|]. split; [lia|]. split.
  - apply (proj1 X17_leaky_consume_then_read). lia.
  - apply (proj2 X17_leaky_consume_then_read). lia.
Defined.

Lemma X18_mem_leaky_cleanup_unobservable_witness :
  4000 <= 9000 /\
  (Mem.getState 3 (Mem.cleanupAllExpired
     ({[ "a" := {| Mem.items := [{| Mem.expiresAt := 3 |}; {| Mem.expiresAt := 8 |}] |} ]}
        : gmap string Mem.QueueState) 4000) "a" 9000).1
  = (Mem.getState 3
     ({[ "a" := {| Mem.items := [{| Mem.expiresAt := 3 |}; {| Mem.expiresAt := 8 |}] |} ]}
        : gmap string Mem.QueueState) "a" 9000).1.
Proof.
  split; [lia|].
  exact (proj1 (X18_mem_leaky_cleanup_unobservable 3 5 _ "a" 4000 9000 ltac:(lia))).
Defined.

Lemma X19_leaky_capacity_bound_witness :
  0 <= 2 /\
  (forall k q, (Mem.consume 2 5
     ({[ "a" := {| Mem.items := [{| Mem.expiresAt := 7 |}] |} ]} : gmap string Mem.QueueState)
     "a" 4000).2 !! k = Some q -> Z.of_nat (length (Mem.items q)) <= 2)
  /\ (forall k l, (Redis.consume 2 5
     ({[ "leaky_bucket:a" := {| Redis.elems := ["r0"]; Redis.expireAt := 9000 |} ]}
        : gmap string Redis.RList) "a" "r1" 4000).2 !! k = Some l ->
     Z.of_nat (length (Redis.elems l)) <= 2).
Proof.
  split; [lia|]. split.
  - apply (proj1 X19_leaky_capacity_bound 2 5 _ "a" 4000); [lia|].
    intros k q E; apply lookup_singleton_Some in E as [_ <-]; cbn; lia.
  - apply (proj2 X19_leaky_capacity_bound 2 5 _ "a" "r1" 4000).
    intros k l E; apply lookup_singleton_Some in E as [_ <-]; cbn; lia.
Defined.

End LeakyBucketExtras.

Section ThrottlingExtras.
Import Throttling.

(** X20.  A rejection tells the truth about when to retry: in both
    backends, if throttle fails at [now], its nextAllowedAt is
    [now + waitTime]; on the store it returns, a throttle at any instant
    [t] from [now] up to before nextAllowedAt fails again with the same
    nextAllowedAt and waitTime [nextAllowedAt - t], and a throttle at any
    instant from nextAllowedAt on succeeds. *)
Theorem X20_throttle_retry_after :
  (forall minInterval (m : gmap string Z) key now,
     let '(r, m') := Mem.throttle minInterval m key now in
     success r = false ->
     nextAllowedAt r = now + waitTime r
     /\ (forall t, now <= t < nextAllowedAt r ->
           (Mem.throttle minInterval m' key t).1
           = {| success := false; waitTime := nextAllowedAt r - t;
                nextAllowedAt := nextAllowedAt r |})
     /\ (forall t, nextAllowedAt r <= t ->
           success (Mem.throttle minInterval m' key t).1 = true))
  /\ (forall name minInterval (store : gmap string Z) key now,
     let '(r, s') := Redis.throttle name minInterval store key now in
     success r = false ->
     nextAllowedAt r = now + waitTime r
     /\ (forall t, now <= t < nextAllowedAt r ->
           (Redis.throttle name minInterval s' key t).1
           = {| success := false; waitTime := nextAllowedAt r - t;
                nextAllowedAt := nextAllowedAt r |})
     /\ (forall t, nextAllowedAt r <= t ->
           success (Redis.throttle name minInterval s' key t).1 = true)).
Proof.
  split.
  - intros minInterval m key now. rewrite mem_throttle_eq. cbn zeta.
    destruct (Z.leb_spec minInterval (now - default 0 (m !! key))); cbn; [discriminate|].
    intros _. split; [lia|]. split.
    + intros t Ht. rewrite mem_throttle_eq. cbn zeta.
      destruct (Z.leb_spec minInterval (t - default 0 (m !! key))); [lia|].
      cbn. f_equal. lia.
    + intros t Ht. rewrite mem_throttle_eq. cbn zeta.
      destruct (Z.leb_spec minInterval (t - default 0 (m !! key))); [reflexivity|lia].
  - intros name minInterval store key now. rewrite redis_throttle_eq. cbn zeta.
    set (k := getKey Redis.PREFIX name key).
    destruct (Z.leb_spec minInterval (now - default 0 (store !! k))); cbn; [discriminate|].
    intros _. split; [lia|]. split.
    + intros t Ht. rewrite redis_throttle_eq. cbn zeta. fold k.
      destruct (Z.leb_spec minInterval (t - default 0 (store !! k))); [lia|].
      cbn. f_equal. lia.
    + intros t Ht. rewrite redis_throttle_eq. cbn zeta. fold k.
      destruct (Z.leb_spec minInterval (t - default 0 (store !! k))); [reflexivity|lia].
Qed.

Lemma X20_throttle_retry_after_witness :
  (success (Mem.throttle 1000 ({[ "k" := 5000 ]} : gmap string Z) "k" 5500).1 = false
   /\ nextAllowedAt (Mem.throttle 1000 ({[ "k" := 5000 ]} : gmap string Z) "k" 5500).1
      = 5500 + waitTime (Mem.throttle 1000 ({[ "k" := 5000 ]} : gmap string Z) "k" 5500).1)
  /\ (success (Redis.throttle "n" 1000
                 (<[getKey Redis.PREFIX "n" "k" := 5000]> ∅) "k" 5500).1 = false
   /\ nextAllowedAt (Redis.throttle "n" 1000
                       (<[getKey Redis.PREFIX "n" "k" := 5000]> ∅) "k" 5500).1
      = 5500 + waitTime (Redis.throttle "n" 1000
                           (<[getKey Redis.PREFIX "n" "k" := 5000]> ∅) "k" 5500).1).
Proof.
  split.
  - pose proof (proj1 X20_throttle_retry_after 1000 {[ "k" := 5000 ]} "k" 5500) as H.
    destruct (Mem.throttle 1000 {[ "k" := 5000 ]} "k" 5500) as [r m'] eqn:E.
    assert (Hr : r = (Mem.throttle 1000 {[ "k" := 5000 ]} "k" 5500).1) by (rewrite E; reflexivity).
    assert (Hs : success r = false) by (rewrite Hr; vm_compute; reflexivity).
    split; [exact Hs|exact (proj1 (H Hs))].
  - pose proof (proj2 X20_throttle_retry_after "n" 1000
                  (<[getKey Redis.PREFIX "n" "k" := 5000]> ∅) "k" 5500) as H.
    destruct (Redis.throttle "n" 1000 (<[getKey Redis.PREFIX "n" "k" := 5000]> ∅) "k" 5500)
      as [r s'] eqn:E.
    assert (Hr : r = (Redis.throttle "n" 1000
                        (<[getKey Redis.PREFIX "n" "k" := 5000]> ∅) "k" 5500).1)
      by (rewrite E; reflexivity).
    assert (Hs : success r = false) by (rewrite Hr; vm_compute; reflexivity).
    split; [exact Hs|exact (proj1 (H Hs))].
Defined.

End ThrottlingExtras.

Section TokenBucketAdjust.
Import TokenBucket.

(** After the in-memory refill at [now], no further refill cycle is due
    at [now]. *)
Lemma mem_refill_no_cycle_left (c : Config) (b0 : Mem.BucketState) (now : Z) :
  0 < refillInterval c ->
  (now - Mem.lastRefill (Mem.refillBucket c b0 now)) / refillInterval c <= 0.
Proof.
  intros Hi. unfold Mem.refillBucket. cbn zeta.
  destruct (Z.ltb_spec 0 ((now - Mem.lastRefill b0) / refillInterval c)); cbn; [|lia].
  rewrite Z.sub_diag, Z.div_0_l by lia. lia.
Qed.

(** X21.  In memory, adding or removing tokens is seen by the next read
    at the same instant: after [addTokens(key, amount)] succeeds,
    getRemainingTokens reports [min(capacity, n + amount)], and after
    [removeTokens(key, amount)] succeeds it reports [max(0, n - amount)],
    where [n] is what getRemainingTokens reported before the change. *)
Theorem X21_mem_token_adjust_then_read (c : Config) :
  valid_config c ->
  (forall buckets key amount ms buckets',
     Mem.addTokens c buckets key amount ms = Ok buckets' ->
     countRemainingTokens (Mem.getRemainingTokens c buckets' key ms).1
     = Z.min (capacity c) (countRemainingTokens (Mem.getRemainingTokens c buckets key ms).1
                           + amount))
  /\ (forall buckets key amount ms buckets',
     Mem.removeTokens c buckets key amount ms = Ok buckets' ->
     countRemainingTokens (Mem.getRemainingTokens c buckets' key ms).1
     = Z.max 0 (countRemainingTokens (Mem.getRemainingTokens c buckets key ms).1 - amount)).
Proof.
  intros (Hc & Ha & Hi).
  assert (Hk : forall (b : Mem.BucketState) t now,
             (now - Mem.lastRefill b) / refillInterval c <= 0 ->
             Mem.refillBucket c {| Mem.tokens := t; Mem.lastRefill := Mem.lastRefill b |} now
             = {| Mem.tokens := t; Mem.lastRefill := Mem.lastRefill b |}).
  { intros b t now H. unfold Mem.refillBucket. cbn.
    destruct (Z.ltb_spec 0 ((now - Mem.lastRefill b) / refillInterval c)); [lia|reflexivity]. }
  split; intros buckets key amount ms buckets' H.
  - unfold Mem.addTokens in H. destruct (Z.leb_spec amount 0); [discriminate|].
    destruct (Mem.getOrCreateBucket c buckets key (ms / 1000)) as [b0 buckets1] eqn:E.
    cbn zeta in H. injection H as <-.
    unfold Mem.getRemainingTokens. rewrite E. unfold Mem.getOrCreateBucket.
    rewrite lookup_insert_eq. cbn zeta.
    rewrite Hk by (apply mem_refill_no_cycle_left; exact Hi). reflexivity.
  - unfold Mem.removeTokens in H. destruct (Z.leb_spec amount 0); [discriminate|].
    destruct (Mem.getOrCreateBucket c buckets key (ms / 1000)) as [b0 buckets1] eqn:E.
    cbn zeta in H. injection H as <-.
    unfold Mem.getRemainingTokens. rewrite E. unfold Mem.getOrCreateBucket.
    rewrite lookup_insert_eq. cbn zeta.
    rewrite Hk by (apply mem_refill_no_cycle_left; exact Hi). reflexivity.
Qed.

Lemma X21_mem_token_adjust_then_read_witness :
  valid_config {| capacity := 10; refillAmount := 2; refillInterval := 5 |}
  /\ Mem.addTokens {| capacity := 10; refillAmount := 2; refillInterval := 5 |}
       ({[ "k" := {| Mem.tokens := 3; Mem.lastRefill := 0 |} ]}
          : gmap string Mem.BucketState) "k" 4 7000
     = Ok (<[ "k" := {| Mem.tokens := 9; Mem.lastRefill := 7 |} ]>
             ({[ "k" := {| Mem.tokens := 3; Mem.lastRefill := 0 |} ]}
                : gmap string Mem.BucketState))
  /\ countRemainingTokens (Mem.getRemainingTokens
       {| capacity := 10; refillAmount := 2; refillInterval := 5 |}
       (<[ "k" := {| Mem.tokens := 9; Mem.lastRefill := 7 |} ]>
          ({[ "k" := {| Mem.tokens := 3; Mem.lastRefill := 0 |} ]}
             : gmap string Mem.BucketState)) "k" 7000).1
     = Z.min 10 (countRemainingTokens (Mem.getRemainingTokens
         {| capacity := 10; refillAmount := 2; refillInterval := 5 |}
         ({[ "k" := {| Mem.tokens := 3; Mem.lastRefill := 0 |} ]}
            : gmap string Mem.BucketState) "k" 7000).1 + 4).
Proof.
  assert (Hv : valid_config {| capacity := 10; refillAmount := 2; refillInterval := 5 |})
    by (unfold valid_config; cbn; lia).
  assert (Ha : Mem.addTokens {| capacity := 10; refillAmount := 2; refillInterval := 5 |}
       ({[ "k" := {| Mem.tokens := 3; Mem.lastRefill := 0 |} ]}
          : gmap string Mem.BucketState) "k" 4 7000
     = Ok (<[ "k" := {| Mem.tokens := 9; Mem.lastRefill := 7 |} ]>
             ({[ "k" := {| Mem.tokens := 3; Mem.lastRefill := 0 |} ]}
                : gmap string Mem.BucketState))) by reflexivity.
  split; [exact Hv|]. split; [exact Ha|].
  exact (proj1 (X21_mem_token_adjust_then_read _ Hv) _ "k" 4 7000 _ Ha).
Defined.

End TokenBucketAdjust.
